(** * CloudMart tagging cost governance dashboard (activity.py)

    A shallow embedding of the tabular computations of the script: the
    cost aggregates, the tag-completeness ranking, the dashboard filters,
    the remediation workflow and the loader's normalisation, followed by
    the properties established about them.

    A [DataFrame] is a list of column labels together with a list of rows;
    a row maps column labels to cells.  Costs are exact rationals, so the
    rounding of binary floating point is outside this model. *)

From stdpp Require Import gmap strings list fin_maps numbers sorting pretty.
From Stdlib Require Import Ascii QArith Qcanon.

Local Open Scope Qc_scope.

(** ** Cells *)

(** The scalars a cell can hold.  [NaN] is the float nan that [read_csv]
    leaves in an empty cell (Python's [None], which the data editor
    returns for a cleared cell, is read the same way by every test below);
    [NA] is [pd.NA]. *)
Inductive value : Type :=
| NaN
| NA
| Str (s : string)
| Num (q : Qc).

Global Instance value_eq_dec : EqDecision value.
Proof. solve_decision. Defined.

(** [pd.isna] *)
Definition isna (v : value) : bool :=
  match v with
  | NaN | NA => true
  | _ => false
  end.

(** Element-wise [==] of a column against a scalar: a missing operand on
    either side compares unequal. *)
Definition eq_cmp (a b : value) : bool :=
  if isna a || isna b then false else bool_decide (a = b).

(** Element-wise [!=]. *)
Definition ne_cmp (a b : value) : bool := negb (eq_cmp a b).

(** [Series.fillna(v)] on one cell. *)
Definition fillna (v x : value) : value := if isna x then v else x.

(** ** Rows and frames *)

Abbreviation row := (gmap string value).

(** [r.get(f)]: the cell under label [f], or a missing value when the row
    has no such label. *)
Definition row_get (r : row) (f : string) : value := default NaN (r !! f).

Record DataFrame : Type := mkDF {
  columns : list string;
  rows : list row
}.

(** [df[c]] read as a sequence of cells. *)
Definition column (c : string) (d : DataFrame) : list value :=
  (λ r, row_get r c) <$> rows d.

Definition add_label (c : string) (cols : list string) : list string :=
  if bool_decide (c ∈ cols) then cols else cols ++ [c].

(** [df[c] = df.apply(f, axis=1)] and the column-wise assignments
    [df[c] = g(df[c'])]: every row receives its new cell, and the label
    is appended when it is new. *)
Definition assign (c : string) (f : row → value) (d : DataFrame) : DataFrame :=
  {| columns := add_label c (columns d);
     rows := (λ r, <[c := f r]> r) <$> rows d |}.

(** [df[mask]] with a row-wise mask. *)
Definition select (p : row → bool) (d : DataFrame) : DataFrame :=
  {| columns := columns d; rows := filter (λ r, p r = true) (rows d) |}.

(** [df.head(n)] *)
Definition head (n : nat) (d : DataFrame) : DataFrame :=
  {| columns := columns d; rows := take n (rows d) |}.

(** ** Task set 2: cost visibility *)

(** Line 83: [df["Tagged_filled"] = df["Tagged"].fillna("No")]. *)
Definition fill_tagged (d : DataFrame) : DataFrame :=
  assign "Tagged_filled" (λ r, fillna (Str "No") (row_get r "Tagged")) d.

(** The number a [Cost] cell contributes to [.sum()], which skips missing
    cells.  The loader makes [Cost] a float column, so no text reaches
    it. *)
Definition cost_of (r : row) : Qc :=
  match row_get r "Cost" with
  | Num q => q
  | _ => 0
  end.

Definition Qcsum (l : list Qc) : Qc := foldr Qcplus 0 l.

(** [d["Cost"].sum()] *)
Definition cost_sum (rs : list row) : Qc := Qcsum (cost_of <$> rs).

(** The order in which [groupby] lays out its group keys: numbers before
    text, each in ascending order, missing keys last. *)
Definition value_leb (a b : value) : bool :=
  match a, b with
  | Num x, Num y => bool_decide (x ≤ y)
  | Num _, _ => true
  | Str _, Num _ => false
  | Str x, Str y => String.leb x y
  | Str _, _ => true
  | NA, (Num _ | Str _ | NaN) => false
  | NA, NA => true
  | NaN, (Num _ | Str _) => false
  | NaN, _ => true
  end.

Definition value_le (a b : value) : Prop := value_leb a b = true.

Global Instance value_le_dec : RelDecision value_le.
Proof. intros a b. unfold value_le. apply _. Defined.

(** [d.groupby(key, dropna=False)["Cost"].sum().reset_index()]: one entry
    per distinct key, carrying the summed cost of the rows under it. *)
Definition group_keys (key : string) (d : DataFrame) : list value :=
  merge_sort value_le (remove_dups (column key d)).

Definition group_rows (key : string) (k : value) (d : DataFrame) : list row :=
  filter (λ r, row_get r key = k) (rows d).

Definition groupby_cost (key : string) (d : DataFrame) : list (value * Qc) :=
  (λ k, (k, cost_sum (group_rows key k d))) <$> group_keys key d.

(** Line 86 *)
Definition tag_cost (d : DataFrame) : list (value * Qc) :=
  groupby_cost "Tagged_filled" d.

(** Line 90 *)
Definition total_cost (d : DataFrame) : Qc := cost_sum (rows d).

(** Line 91 *)
Definition is_untagged (r : row) : bool :=
  eq_cmp (row_get r "Tagged_filled") (Str "No").

Definition untagged_cost (d : DataFrame) : Qc :=
  cost_sum (rows (select is_untagged d)).

(** Division has no result on a zero divisor. *)
Definition truediv (a b : Qc) : option Qc :=
  if decide (b = 0) then None else Some (a / b).

(** Truth value of a number in a condition. *)
Definition truthy (q : Qc) : bool := negb (bool_decide (q = 0)).

(** Line 92:
    [(untagged_cost / total_cost * 100) if total_cost else 0] *)
Definition untagged_cost_pct (d : DataFrame) : option Qc :=
  if truthy (total_cost d)
  then q ← truediv (untagged_cost d) (total_cost d); Some (q * Q2Qc 100)
  else Some 0.

(** The cost summary of lines 83-92 for a loaded table: total cost, the
    split by resolved tagging status, and the untagged percentage. *)
Definition total_and_split_cost (d : DataFrame)
  : Qc * list (value * Qc) * option Qc :=
  let d' := fill_tagged d in
  (total_cost d', tag_cost d', untagged_cost_pct d').

(** Lines 71-74 *)
Definition untag_count (d : DataFrame) : nat :=
  length (filter (λ r, fillna (Str "No") (row_get r "Tagged") = Str "No") (rows d)).

(** ** Task set 4: dashboard filters *)

(** [Series.isin(values)] on one cell. *)
Definition isin (sel : list value) (v : value) : bool := bool_decide (v ∈ sel).

(** One [if sel: filtered = filtered[filtered[c].isin(sel)]] step. *)
Definition restrict (c : string) (sel : list value) (d : DataFrame) : DataFrame :=
  match sel with
  | [] => d
  | _ => select (λ r, isin sel (row_get r c)) d
  end.

(** Lines 150-156: the frame [filtered], as a function of [df] and the
    three selections. *)
Definition filter_by (d : DataFrame) (sel_service sel_region sel_department : list value)
  : DataFrame :=
  restrict "Department" sel_department
    (restrict "Region" sel_region
       (restrict "Service" sel_service d)).

(** ** Task set 3: tag completeness *)

Definition TAG_FIELDS : list string :=
  ["Department"; "Project"; "Environment"; "Owner"; "CostCenter"; "CreatedBy"].

(** Lines 117-118 *)
Definition completeness_score (r : row) : nat :=
  sum_list ((λ f, if isna (row_get r f) then 0%nat else 1%nat) <$> TAG_FIELDS).

Definition num_of_nat (n : nat) : value := Num (Qc_of_Z (Z.of_nat n)).

(** Line 120 *)
Definition with_completeness (d : DataFrame) : DataFrame :=
  assign "TagCompleteness" (λ r, num_of_nat (completeness_score r)) d.

(** [df[cols]]: the frame restricted to the listed columns. *)
Definition pick (cols : list string) (r : row) : row :=
  list_to_map ((λ c, (c, row_get r c)) <$> cols).

Definition project (cols : list string) (d : DataFrame) : DataFrame :=
  {| columns := cols; rows := pick cols <$> rows d |}.

(** The number a sort key stands for; a missing key has none. *)
Definition sort_key (v : value) : option Qc :=
  match v with
  | Num q => Some q
  | _ => None
  end.

Section Ranking.
(** [ndarray.argsort(kind="quicksort")], the routine [sort_values] hands
    the keys to by default: it answers with the positions of the keys
    in ascending key order.  Which positions come first among equal keys
    is the routine's business; pandas documents only [mergesort] and
    [stable] as keeping the original order. *)
Variable argsort : list Qc → list nat.

(** pandas' [nargsort] with [na_position="last"]: the present keys are
    ordered by [argsort], the positions of the missing ones follow. *)
Definition nargsort (items : list value) : list nat :=
  let idx := seq 0 (length items) in
  let non_nan_idx := filter (λ i, is_Some (items !! i ≫= sort_key)) idx in
  let nan_idx := filter (λ i, ¬ is_Some (items !! i ≫= sort_key)) idx in
  let non_nans := omap sort_key items in
  omap (λ j, non_nan_idx !! j) (argsort non_nans) ++ nan_idx.

(** [df.sort_values(by)] *)
Definition sort_values (by_ : string) (d : DataFrame) : DataFrame :=
  {| columns := columns d;
     rows := omap (λ i, rows d !! i) (nargsort (column by_ d)) |}.

(** [df.sort_values("TagCompleteness").head(n)] *)
Definition lowest_completeness (d : DataFrame) (n : nat) : DataFrame :=
  head n (sort_values "TagCompleteness" d).

(** Line 126 *)
Definition lowest5 (d : DataFrame) : DataFrame :=
  project ["ResourceID"; "Service"; "TagCompleteness"; "Cost"; "Tagged_filled"]
    (lowest_completeness d 5).
End Ranking.

(** Lines 129 and 134 *)
Definition missing_count (f : string) (d : DataFrame) : nat :=
  length (filter (λ r, isna (row_get r f) = true) (rows d)).

Definition untagged_df (d : DataFrame) : DataFrame := select is_untagged d.

(** ** Task set 5: remediation *)

(** *** Frames as mutable objects

    The script binds names to frame objects and updates some of them in
    place.  The heap holds the objects; a reference is a position in it.
    Objects are never freed. *)

Abbreviation ref := nat.
Abbreviation heap := (list DataFrame).

Definition M (A : Type) : Type := heap → option (A * heap).

Global Instance M_ret : MRet M := λ A x h, Some (x, h).
Global Instance M_bind : MBind M := λ A B f m h,
  match m h with
  | Some (x, h') => f x h'
  | None => None
  end.

(** [df.copy()]: a new object with the same contents. *)
Definition df_copy (r : ref) : M ref := λ h,
  match h !! r with
  | Some d => Some (length h, h ++ [d])
  | None => None
  end.

Definition df_read (r : ref) : M DataFrame := λ h,
  match h !! r with
  | Some d => Some (d, h)
  | None => None
  end.

(** An in-place update of the object behind [r]. *)
Definition df_modify (r : ref) (f : DataFrame → DataFrame) : M () := λ h,
  match h !! r with
  | Some d => Some ((), <[r := f d]> h)
  | None => None
  end.

Fixpoint for_each {A} (l : list A) (body : A → M ()) : M () :=
  match l with
  | [] => mret ()
  | x :: l' => body x ≫= λ _, for_each l' body
  end.

(** *** The edit map *)

(** A Python dict in iteration order. *)
Abbreviation dict K V := (list (K * V)).

(** Line 190:
    [editable_df.set_index("ResourceID").to_dict(orient="index")].
    Each row of the editor becomes an entry keyed by its [ResourceID],
    holding every other column of that row; [to_dict] refuses an index
    with repeated labels. *)
Definition row_changes (cols : list string) (r : row) : dict string value :=
  (λ c, (c, row_get r c)) <$> filter (λ c, c ≠ "ResourceID") cols.

Definition to_edited_map (editable_df : DataFrame)
  : option (dict value (dict string value)) :=
  if bool_decide (NoDup (column "ResourceID" editable_df))
  then Some ((λ r, (row_get r "ResourceID", row_changes (columns editable_df) r))
               <$> rows editable_df)
  else None.

(** Line 194 on the frame:
    [remediated.loc[remediated["ResourceID"] == rid, col] = val].
    The masked rows receive [val]; a label that is new becomes a column,
    and the rows outside the mask have nothing under it, which [row_get]
    reads as missing. *)
Definition loc_row (rid : value) (col : string) (val : value) (r : row) : row :=
  if eq_cmp (row_get r "ResourceID") rid then <[col := val]> r else r.

Definition loc_assign (rid : value) (col : string) (val : value) (d : DataFrame)
  : DataFrame :=
  {| columns := add_label col (columns d);
     rows := loc_row rid col val <$> rows d |}.

(** Line 198, the row function *)
Definition retag (r : row) : value :=
  if negb (isna (row_get r "Department")) && negb (isna (row_get r "Owner"))
  then Str "Yes"
  else if negb (isna (row_get r "Tagged_filled")) then row_get r "Tagged_filled"
       else Str "No".

(** Lines 192-194 *)
Definition apply_edits (remediated : ref) (edited_map : dict value (dict string value))
  : M () :=
  for_each edited_map (λ '(rid, changes),
    for_each changes (λ '(col, val),
      df_modify remediated (loc_assign rid col val))).

(** Lines 197-198 *)
Definition recompute (remediated : ref) : M () :=
  df_modify remediated
    (assign "TagCompleteness" (λ r, num_of_nat (completeness_score r))) ≫= λ _,
  df_modify remediated (assign "Tagged_filled" retag).

(** Lines 188-194: the remediated table starts as a copy of [df] and
    receives the edits. *)
Definition merge_edits (df : ref) (edited_map : dict value (dict string value))
  : M ref :=
  remediated ← df_copy df;
  apply_edits remediated edited_map ≫= λ _,
  mret remediated.

(** Lines 188-198: after the edits the two derived columns of the
    remediated table are recomputed. *)
Definition apply_remediation (df : ref) (edited_map : dict value (dict string value))
  : M ref :=
  remediated ← merge_edits df edited_map;
  recompute remediated ≫= λ _,
  mret remediated.

(** What the loop of lines 192-194 and the recomputation of lines
    197-198 leave in the remediated object, as functions of the contents
    of [df]. *)
Definition apply_changes (rid : value) (changes : dict string value) (d : DataFrame)
  : DataFrame :=
  foldl (λ acc '(col, val), loc_assign rid col val acc) d changes.

Definition edited (edited_map : dict value (dict string value)) (d : DataFrame)
  : DataFrame :=
  foldl (λ acc '(rid, changes), apply_changes rid changes acc) d edited_map.

Definition recomputed (d : DataFrame) : DataFrame :=
  assign "Tagged_filled" retag
    (assign "TagCompleteness" (λ r, num_of_nat (completeness_score r)) d).

(** The same on a single row. *)
Definition edit_row (edited_map : dict value (dict string value)) (r : row) : row :=
  foldl (λ acc '(rid, changes),
           foldl (λ acc '(col, val), loc_row rid col val acc) acc changes)
        r edited_map.

Definition recompute_row (r : row) : row :=
  let r1 := <["TagCompleteness" := num_of_nat (completeness_score r)]> r in
  <["Tagged_filled" := retag r1]> r1.

(** The labels an edit map assigns to, and the shape every map built by
    [to_edited_map] has: a dict holds each key once, and [set_index] has
    moved [ResourceID] out of the columns. *)
Definition edited_labels (edited_map : dict value (dict string value)) : list string :=
  ch ← edited_map.*2; ch.*1.

Definition edit_map_ok (edited_map : dict value (dict string value)) : Prop :=
  NoDup edited_map.*1 ∧
  Forall (λ ch : dict string value, NoDup ch.*1) edited_map.*2 ∧
  "ResourceID" ∉ edited_labels edited_map.

(** Line 222: the left join of the remediated rows with the
    [ResourceID] and [Tagged_filled] columns of [df].  Every left row is
    paired with each right row carrying the same key, in order; a left row
    without partner keeps a missing "before" cell.  The column both sides
    share besides the key gets the suffixes. *)
Definition joined (a : row) (before : value) : row :=
  <["Tagged_filled_before" := before]>
    (<["Tagged_filled_after" := row_get a "Tagged_filled"]>
       (delete "Tagged_filled" a)).

Definition merge_before (remediated df : DataFrame) : DataFrame :=
  {| columns :=
       ((λ c, if bool_decide (c = "Tagged_filled") then "Tagged_filled_after" else c)
          <$> columns remediated) ++ ["Tagged_filled_before"];
     rows :=
       a ← rows remediated;
       match filter (λ b, row_get b "ResourceID" = row_get a "ResourceID") (rows df) with
       | [] => [joined a NaN]
       | bs => (λ b, joined a (row_get b "Tagged_filled")) <$> bs
       end |}.

(** Line 223 *)
Definition changed (remediated df : DataFrame) : DataFrame :=
  project ["ResourceID"; "Tagged_filled_before"; "Tagged_filled_after"; "Cost"]
    (select (λ r, ne_cmp (row_get r "Tagged_filled_after")
                         (row_get r "Tagged_filled_before"))
       (merge_before remediated df)).

(** Lines 202 and 204 *)
Definition after_untag_cost (remediated : DataFrame) : Qc :=
  cost_sum (rows (select is_untagged remediated)).

Definition after_untag_count (remediated : DataFrame) : nat :=
  length (rows (select is_untagged remediated)).

(** The body of the button handler, lines 186-223: build the edit map
    from the editor's table, remediate, and report the changed rows. *)
Definition on_apply (df : ref) (editable_df : DataFrame) : M (ref * DataFrame) := λ h,
  match to_edited_map editable_df with
  | None => None
  | Some edited_map =>
      (remediated ← apply_remediation df edited_map;
       after ← df_read remediated;
       before ← df_read df;
       mret (remediated, changed after before)) h
  end.

(** ** Loading and cleaning, lines 12-47 *)

(** Python's [str.strip()] on the ASCII range: tab to carriage return,
    the four separators 28-31 and the blank. *)
Definition is_space (a : ascii) : bool :=
  let n := nat_of_ascii a in
  bool_decide (9 ≤ n ≤ 13)%nat || bool_decide (28 ≤ n ≤ 32)%nat.

Fixpoint lstrip (s : string) : string :=
  match s with
  | String a s' => if is_space a then lstrip s' else s
  | EmptyString => s
  end.

Definition strip (s : string) : string :=
  String.rev (lstrip (String.rev (lstrip s))).

Inductive LoadError : Type :=
| MissingCostColumn.   (* ValueError("CSV missing MonthlyCostUSD or Cost column") *)

Definition REQUIRED : list string :=
  ["AccountID"; "Service"; "Region"; "Environment"; "Tagged"; "ResourceID";
   "Project"; "Department"; "Owner"; "CostCenter"; "CreatedBy"].

Definition is_text (v : value) : Prop :=
  match v with
  | Str _ => True
  | _ => False
  end.

Global Instance is_text_dec v : Decision (is_text v).
Proof. destruct v; apply _. Defined.

Section Loader.
(** The two conversions between text and numbers belong to the library:
    [parse_number] is how [pd.to_numeric] reads a text cell ([None] when
    the text is not a number), [repr_number] is [str] of a number. *)
Variable parse_number : string → option Qc.
Variable repr_number : Qc → string.

(** [pd.to_numeric(..., errors="coerce")] on one cell *)
Definition to_numeric (v : value) : value :=
  match v with
  | Num q => Num q
  | Str s => match parse_number s with
             | Some q => Num q
             | None => NaN
             end
  | _ => NaN
  end.

(** [pd.to_numeric(col, errors="coerce").fillna(0)] on one cell *)
Definition coerce_cost (v : value) : value := fillna (Num 0) (to_numeric v).

(** Lines 27-33 *)
Definition standardize_cost (d : DataFrame) : LoadError + DataFrame :=
  if bool_decide ("MonthlyCostUSD" ∈ columns d)
  then inr (assign "Cost" (λ r, coerce_cost (row_get r "MonthlyCostUSD")) d)
  else if bool_decide ("Cost" ∈ columns d)
       then inr (assign "Cost" (λ r, coerce_cost (row_get r "Cost")) d)
       else inl MissingCostColumn.

(** [.astype(str)] on one cell *)
Definition astype_str (v : value) : string :=
  match v with
  | Str s => s
  | Num q => repr_number q
  | NaN => "nan"
  | NA => "<NA>"
  end.

(** The [.replace({...})] of line 37 on one cell: the empty text and
    the texts "nan" and "None" become [pd.NA]. *)
Definition blank_to_na (s : string) : value :=
  if bool_decide (s ∈ [EmptyString; "nan"; "None"]) then NA else Str s.

Definition normalize_text (v : value) : value :=
  blank_to_na (strip (astype_str v)).

(** The columns of dtype [object]: those in which [read_csv] found text. *)
Definition is_object (d : DataFrame) (c : string) : bool :=
  bool_decide (Exists is_text (column c d)).

(** Lines 36-37 *)
Definition normalize_objects (d : DataFrame) : DataFrame :=
  foldl (λ acc c, assign c (λ r, normalize_text (row_get r c)) acc) d
    (filter (λ c, is_object d c = true) (columns d)).

(** Lines 40-42: the loop over a list of labels, and over the
    required ones. *)
Definition ensure (l : list string) (d : DataFrame) : DataFrame :=
  foldl (λ acc req, if bool_decide (req ∈ columns acc) then acc
                    else assign req (λ _, NA) acc) d l.

Definition ensure_fields (d : DataFrame) : DataFrame := ensure REQUIRED d.

(** Line 45 *)
Definition stringify_account (d : DataFrame) : DataFrame :=
  assign "AccountID" (λ r, Str (astype_str (row_get r "AccountID"))) d.

(** [load_data] from line 27 on.  Its argument is the frame that
    [read_csv] produced from the quote-stripped file, with the column
    labels already trimmed (lines 14-24). *)
Definition load_data (d : DataFrame) : LoadError + DataFrame :=
  match standardize_cost d with
  | inl e => inl e
  | inr d1 => inr (stringify_account (ensure_fields (normalize_objects d1)))
  end.
End Loader.

(** ** numpy's index quicksort

    The generic (non-vectorised) routine behind
    [argsort(kind="quicksort")]: median-of-three partitioning of the index
    array down to ranges of at most 17 entries, which are finished by
    insertion sort.  The routine keeps a depth budget of twice the bit
    length of the input and hands a range to heapsort when the budget is
    spent; that branch has no answer here. *)
Module NumpySort.
Section Kernel.
Variable v : list Qc.

Definition SMALL_QUICKSORT : nat := 16.

Definition less (a b : Qc) : bool := bool_decide (a < b).

(** [v[*p]] *)
Definition at_ (t : list nat) (p : nat) : Qc :=
  default 0 (t !! p ≫= λ i, v !! i).

(** [INTP_SWAP] of the entries at [p] and [q] *)
Definition swap (t : list nat) (p q : nat) : list nat :=
  match t !! p, t !! q with
  | Some a, Some b => <[q := a]> (<[p := b]> t)
  | _, _ => t
  end.

(** [do { ++pi; } while (less(v[*pi], vp));] *)
Fixpoint scan_up (fuel : nat) (t : list nat) (vp : Qc) (pi : nat) : nat :=
  match fuel with
  | O => pi
  | S fuel' =>
      if less (at_ t (S pi)) vp then scan_up fuel' t vp (S pi) else S pi
  end.

(** [do { --pj; } while (less(vp, v[*pj]));] *)
Fixpoint scan_down (fuel : nat) (t : list nat) (vp : Qc) (pj : nat) : nat :=
  match fuel with
  | O => pj
  | S fuel' =>
      if less vp (at_ t (pred pj)) then scan_down fuel' t vp (pred pj) else pred pj
  end.

(** The [for (;;)] loop of the partition. *)
Fixpoint partition_loop (fuel : nat) (t : list nat) (vp : Qc) (pi pj : nat)
  : list nat * nat :=
  match fuel with
  | O => (t, pi)
  | S fuel' =>
      let pi' := scan_up (length t) t vp pi in
      let pj' := scan_down (length t) t vp pj in
      if bool_decide (pj' ≤ pi')%nat then (t, pi')
      else partition_loop fuel' (swap t pi' pj') vp pi' pj'
  end.

Definition swap_if_less (t : list nat) (p q : nat) : list nat :=
  if less (at_ t p) (at_ t q) then swap t p q else t.

(** One pass of the [while ((pr - pl) > SMALL_QUICKSORT)] body up to
    the final position [pi] of the pivot. *)
Definition partition (t : list nat) (pl pr : nat) : list nat * nat :=
  let pm := (pl + Nat.div2 (pr - pl))%nat in
  let t := swap_if_less t pm pl in
  let t := swap_if_less t pr pm in
  let t := swap_if_less t pm pl in
  let vp := at_ t pm in
  let t := swap t pm (pr - 1)%nat in
  let '(t, pi) := partition_loop (length t) t vp pl (pr - 1)%nat in
  (swap t pi (pr - 1)%nat, pi).

(** [while (pj > pl && less(vp, v[*pk])) { *pj-- = *pk--; }] *)
Fixpoint shift (fuel : nat) (t : list nat) (pl : nat) (vp : Qc) (pj : nat)
  : list nat * nat :=
  match fuel with
  | O => (t, pj)
  | S fuel' =>
      if bool_decide (pl < pj)%nat && less vp (at_ t (pred pj))
      then shift fuel' (<[pj := default O (t !! pred pj)]> t) pl vp (pred pj)
      else (t, pj)
  end.

Definition insertion_sort (t : list nat) (pl pr : nat) : list nat :=
  foldl (λ t pi,
           let vi := default O (t !! pi) in
           let vp := default 0 (v !! vi) in
           let '(t', pj) := shift (length t) t pl vp pi in
           <[pj := vi]> t')
        t (seq (S pl) (pr - pl)%nat).

(** The inner [while] loop: partition, push the larger side on the
    stack with the decremented depth, continue with the smaller. *)
Fixpoint split_range (fuel : nat) (t : list nat) (pl pr : nat)
    (stack : list (nat * nat * Z)) (cdepth : Z)
  : list nat * nat * nat * list (nat * nat * Z) * Z :=
  match fuel with
  | O => (t, pl, pr, stack, cdepth)
  | S fuel' =>
      if bool_decide (SMALL_QUICKSORT < pr - pl)%nat then
        let '(t', pi) := partition t pl pr in
        let cdepth' := (cdepth - 1)%Z in
        if bool_decide (pi - pl < pr - pi)%nat
        then split_range fuel' t' pl (pi - 1)%nat ((S pi, pr, cdepth') :: stack) cdepth'
        else split_range fuel' t' (S pi) pr ((pl, (pi - 1)%nat, cdepth') :: stack) cdepth'
      else (t, pl, pr, stack, cdepth)
  end.

(** The outer [while (1)] loop. *)
Fixpoint run (fuel : nat) (t : list nat) (pl pr : nat)
    (stack : list (nat * nat * Z)) (cdepth : Z) : option (list nat) :=
  match fuel with
  | O => None
  | S fuel' =>
      if bool_decide (cdepth < 0)%Z then None
      else
        let '(t1, pl1, pr1, stack1, _) := split_range (length t) t pl pr stack cdepth in
        let t2 := insertion_sort t1 pl1 pr1 in
        match stack1 with
        | [] => Some t2
        | (pl', pr', cdepth') :: stack' => run fuel' t2 pl' pr' stack' cdepth'
        end
  end.

Definition aquicksort : option (list nat) :=
  let num := length v in
  run (S num) (seq 0 num) 0%nat (num - 1)%nat [] (2 * (Z.log2 (Z.of_nat num)))%Z.
End Kernel.

(** The routine as a total function on key lists. *)
Definition argsort (v : list Qc) : list nat := default [] (aquicksort v).
End NumpySort.

(** ** Sample tables *)

Definition mk_row (l : list (string * value)) : row := list_to_map l.

(** Two resources, one untagged without department and owner, one tagged. *)
Definition scenario_loaded : DataFrame :=
  {| columns := ["ResourceID"; "Department"; "Owner"; "Tagged"; "Cost"];
     rows := [ mk_row [("ResourceID", Str "A"); ("Department", NA); ("Owner", NA);
                       ("Tagged", Str "No"); ("Cost", Num (Q2Qc 100))];
               mk_row [("ResourceID", Str "B"); ("Department", Str "Eng");
                       ("Owner", Str "Alice"); ("Tagged", Str "Yes");
                       ("Cost", Num (Q2Qc 50))] ] |}.

(** [df] as it stands when the remediation section is reached. *)
Definition scenario : DataFrame := with_completeness (fill_tagged scenario_loaded).

(** The editor's table after the user filled in department and owner of
    resource A. *)
Definition scenario_editor : DataFrame :=
  assign "Owner" (λ _, Str "Bob")
    (assign "Department" (λ _, Str "Eng")
       (project ["ResourceID"; "Department"; "Owner"; "Tagged"; "Cost"; "Tagged_filled"]
          (untagged_df scenario))).

Definition scenario_edits : dict value (dict string value) :=
  default [] (to_edited_map scenario_editor).

(** The same correction as a map that names only the fields it changes. *)
Definition scenario_fix : dict value (dict string value) :=
  [(Str "A", [("Department", Str "Eng"); ("Owner", Str "Bob")])].

(** Two rows share the resource id R1; the first is tagged, the second is
    not. *)
Definition dup_frame : DataFrame :=
  {| columns := ["ResourceID"; "Department"; "Owner"; "Tagged"; "Cost"; "Tagged_filled"];
     rows := [ mk_row [("ResourceID", Str "R1"); ("Department", Str "Eng");
                       ("Owner", Str "Alice"); ("Tagged", Str "Yes");
                       ("Cost", Num (Q2Qc 50)); ("Tagged_filled", Str "Yes")];
               mk_row [("ResourceID", Str "R1"); ("Department", NaN);
                       ("Owner", NaN); ("Tagged", Str "No");
                       ("Cost", Num (Q2Qc 100)); ("Tagged_filled", Str "No")] ] |}.

(** An edit of the department of R1. *)
Definition dup_edits : dict value (dict string value) :=
  [(Str "R1", [("Department", Str "Ops")])].



Definition both_costs : DataFrame :=
  {| columns := ["MonthlyCostUSD"; "Cost"];
     rows := [ mk_row [("MonthlyCostUSD", Num (Q2Qc 5)); ("Cost", Num (Q2Qc 1))];
               mk_row [("MonthlyCostUSD", Str "n/a"); ("Cost", Num (Q2Qc 2))];
               mk_row [("MonthlyCostUSD", NaN); ("Cost", Num (Q2Qc 3))] ] |}.

(** Stand-ins for the library's conversions, for inputs on which they are
    not consulted or on which no text is a number. *)
Definition no_number (s : string) : option Qc := None.
Definition no_repr (q : Qc) : string := EmptyString.

(** ** Further parts of the script *)




(** Lines 71-77: [tag_counts.get(k, 0)] for the counts of the filled
    [Tagged] column, and the share of untagged resources. *)
Definition tag_counts_get (k : value) (d : DataFrame) : nat :=
  length (filter (λ v, v = k) (fillna (Str "No") <$> column "Tagged" d)).

Definition untag_pct (d : DataFrame) : option Qc :=
  let total := length (rows d) in
  if bool_decide (total ≠ 0%nat)
  then q ← truediv (Qc_of_Z (Z.of_nat (untag_count d))) (Qc_of_Z (Z.of_nat total));
       Some (q * Q2Qc 100)
  else Some 0.




(** Lines 146-148: [sorted(df[c].dropna().unique())].  [sorted] compares
    text with text and numbers with numbers, and raises on a mix. *)
Definition is_num (v : value) : Prop :=
  match v with
  | Num _ => True
  | _ => False
  end.

Global Instance is_num_dec v : Decision (is_num v).
Proof. destruct v; apply _. Defined.

Definition py_sorted (l : list value) : option (list value) :=
  if bool_decide (Forall is_text l ∨ Forall is_num l)
  then Some (merge_sort value_le l)
  else None.

Definition options (c : string) (d : DataFrame) : option (list value) :=
  py_sorted (remove_dups (filter (λ v, isna v = false) (column c d))).




(** Lines 58, 83 and 120: the snapshot [original_df], then the two
    columns added to [df] in place. *)
Definition script_setup (df : ref) : M ref :=
  original_df ← df_copy df;
  df_modify df fill_tagged ≫= λ _,
  df_modify df with_completeness ≫= λ _,
  mret original_df.

(** The session from line 58 to the end of the button handler, for the
    table the user leaves in the editor. *)
Definition session (df : ref) (editable_df : DataFrame) : M (ref * ref * DataFrame) :=
  original_df ← script_setup df;
  res ← on_apply df editable_df;
  mret (original_df, res.1, res.2).


(** * Properties *)

(** ** Lists, cells and rows *)

Section Basics.
Implicit Types (r : row) (c : string) (v : value).

Lemma foldl_ext {A B} (f g : A → B → A) (a : A) (l : list B) :
  (∀ a x, f a x = g a x) → foldl f a l = foldl g a l.
Proof.
  intros Hfg. revert a. induction l as [|x l IH]; intros a; cbn; [done|].
  by rewrite Hfg, IH.
Qed.

Lemma filter_Forall_id {A} (P : A → Prop) `{!∀ x, Decision (P x)} (l : list A) :
  Forall P l → filter P l = l.
Proof.
  induction 1 as [|x l Hx Hl IH]; [done|].
  by rewrite filter_cons, decide_True, IH.
Qed.

Lemma filter_Forall_nil {A} (P : A → Prop) `{!∀ x, Decision (P x)} (l : list A) :
  Forall (λ x, ¬ P x) l → filter P l = [].
Proof.
  induction 1 as [|x l Hx Hl IH]; [done|].
  by rewrite filter_cons, decide_False, IH.
Qed.

Lemma filter_unique_key {A B} `{EqDecision B} (f : A → B) (l : list A)
    (i : nat) (y : A) :
  NoDup (f <$> l) → l !! i = Some y → filter (λ z, f z = f y) l = [y].
Proof.
  revert i. induction l as [|z0 l IH]; intros i Hnd Hi; [done|].
  rewrite fmap_cons in Hnd. apply NoDup_cons in Hnd as [Hx Hnd].
  rewrite filter_cons. destruct i as [|i]; cbn in Hi.
  - simplify_eq. rewrite decide_True by done. f_equal.
    apply filter_Forall_nil, Forall_forall. intros z Hz Heq.
    apply Hx. rewrite <-Heq. apply list_elem_of_fmap. eauto.
  - rewrite decide_False; [by eapply IH|].
    intros Heq. apply Hx. rewrite Heq.
    apply list_elem_of_fmap. exists y. split; [done|].
    by eapply list_elem_of_lookup_2.
Qed.

Lemma frame_eq (d1 d2 : DataFrame) :
  columns d1 = columns d2 → rows d1 = rows d2 → d1 = d2.
Proof. destruct d1, d2; cbn; congruence. Qed.

Lemma eq_cmp_true (x y : value) : eq_cmp x y = true ↔ x = y ∧ isna x = false.
Proof.
  unfold eq_cmp. destruct x, y; cbn; rewrite ?bool_decide_eq_true;
    split; try done; by intros [? ?].
Qed.

Lemma row_get_insert c v r c' :
  row_get (<[c := v]> r) c' = if decide (c = c') then v else row_get r c'.
Proof.
  unfold row_get. rewrite lookup_insert.
  by destruct (decide (c = c')).
Qed.

Lemma row_get_insert_eq c v r : row_get (<[c := v]> r) c = v.
Proof. by rewrite row_get_insert, decide_True. Qed.

Lemma row_get_insert_ne c v r c' : c ≠ c' → row_get (<[c := v]> r) c' = row_get r c'.
Proof. intros. by rewrite row_get_insert, decide_False. Qed.

Lemma row_get_pick (cols : list string) r c :
  c ∈ cols → row_get (pick cols r) c = row_get r c.
Proof.
  unfold pick. induction cols as [|c' cols IH]; intros Hc.
  - by apply elem_of_nil in Hc.
  - rewrite fmap_cons, list_to_map_cons, row_get_insert.
    destruct (decide (c' = c)) as [->|Hne]; [done|].
    apply elem_of_cons in Hc as [?|Hc]; [done|]. by apply IH.
Qed.

Lemma elem_of_add_label c c' (cols : list string) :
  c ∈ add_label c' cols ↔ c = c' ∨ c ∈ cols.
Proof.
  unfold add_label. case_bool_decide as H.
  - split; [auto|]. by intros [->|?].
  - rewrite elem_of_app, list_elem_of_singleton. tauto.
Qed.


Lemma column_assign_eq c f (d : DataFrame) : column c (assign c f d) = f <$> rows d.
Proof.
  unfold column, assign. cbn. rewrite <-list_fmap_compose.
  apply list_fmap_ext. intros _ r _. cbn. apply row_get_insert_eq.
Qed.

Lemma column_assign_ne c c' f (d : DataFrame) :
  c' ≠ c → column c (assign c' f d) = column c d.
Proof.
  intros Hne. unfold column, assign. cbn. rewrite <-list_fmap_compose.
  apply list_fmap_ext. intros _ r _. cbn. by apply row_get_insert_ne.
Qed.
End Basics.

(** ** Cost aggregates *)

Section Aggregates.
Implicit Types (d : DataFrame) (r : row) (k : value) (rs : list row).








Lemma truediv_some (a b : Qc) : b ≠ 0 → truediv a b = Some (a / b).
Proof. intros Hb. unfold truediv. by rewrite decide_False. Qed.

Lemma untagged_cost_pct_zero d : total_cost d = 0 → untagged_cost_pct d = Some 0.
Proof. intros H. unfold untagged_cost_pct, truthy. rewrite H. reflexivity. Qed.

Lemma untagged_cost_pct_nonzero d :
  total_cost d ≠ 0 →
  untagged_cost_pct d = Some (untagged_cost d / total_cost d * Q2Qc 100).
Proof.
  intros H. unfold untagged_cost_pct, truthy.
  rewrite bool_decide_eq_false_2 by done. cbn.
  rewrite truediv_some by done. reflexivity.
Qed.
End Aggregates.


(** C5: [total_and_split_cost] always yields a percentage.  On a table
    without rows the total is 0; whenever the total is 0 the percentage is
    0; whenever the total is positive the percentage is the untagged cost
    divided by the total, times 100. *)
Theorem zero_division_guard (d : DataFrame) :
  let '(total, split, pct) := total_and_split_cost d in
  is_Some pct ∧
  (rows d = [] → total = 0) ∧
  (total = 0 → pct = Some 0) ∧
  (0 < total → pct = Some (untagged_cost (fill_tagged d) / total * Q2Qc 100)).
Proof.
  unfold total_and_split_cost. cbv zeta. split_and!.
  - destruct (decide (total_cost (fill_tagged d) = 0)) as [H|H].
    + rewrite untagged_cost_pct_zero by done. eauto.
    + rewrite untagged_cost_pct_nonzero by done. eauto.
  - intros H. unfold total_cost, fill_tagged, assign. cbn. rewrite H. reflexivity.
  - apply untagged_cost_pct_zero.
  - intros H. apply untagged_cost_pct_nonzero. intros H0. rewrite H0 in H.
    by apply Qclt_not_eq in H.
Qed.

Lemma zero_division_guard_witness :
  0 < total_cost (fill_tagged scenario_loaded) ∧
  untagged_cost_pct (fill_tagged scenario_loaded)
    = Some (untagged_cost (fill_tagged scenario_loaded)
            / total_cost (fill_tagged scenario_loaded) * Q2Qc 100).
Proof.
  assert (0 < total_cost (fill_tagged scenario_loaded)) as Hpos.
  { refine (bool_decide_unpack _ _). by vm_compute. }
  split; [exact Hpos|].
  destruct (zero_division_guard scenario_loaded) as (_ & _ & _ & H).
  exact (H Hpos).
Defined.

(** The scenario of two resources: total 150, of which 100 untagged, that
    is two thirds. *)
Example scenario_costs :
  total_and_split_cost scenario_loaded
  = (Q2Qc 150, [(Str "No", Q2Qc 100); (Str "Yes", Q2Qc 50)], Some (Q2Qc (200 # 3))).
Proof. by vm_compute. Qed.

(** ** Dashboard filters *)

Section Filters.
Implicit Types (d : DataFrame) (r : row) (sel : list value) (c : string).

Lemma restrict_rows c sel d :
  rows (restrict c sel d) = filter (λ r, sel = [] ∨ row_get r c ∈ sel) (rows d).
Proof.
  destruct sel as [|v sel]; cbn.
  - symmetry. apply filter_Forall_id, Forall_forall. intros; by left.
  - apply list_filter_iff. intros r. unfold isin.
    rewrite bool_decide_eq_true. split; [auto|]. by intros [?|?].
Qed.

Lemma restrict_columns c sel d : columns (restrict c sel d) = columns d.
Proof. by destruct sel. Qed.

Lemma restrict_nil c d : restrict c [] d = d.
Proof. reflexivity. Qed.

Lemma restrict_comm c1 sel1 c2 sel2 d :
  restrict c1 sel1 (restrict c2 sel2 d) = restrict c2 sel2 (restrict c1 sel1 d).
Proof.
  apply frame_eq.
  - by rewrite !restrict_columns.
  - rewrite !restrict_rows, !list_filter_filter.
    apply list_filter_iff. tauto.
Qed.
End Filters.

(** C8: [filter_by] keeps the columns and keeps exactly the rows whose
    service, region and department each belong to the corresponding
    selection, an empty selection letting every row pass; the order of the
    rows is kept.  Filtering by the three selections at once is filtering
    by one selection after the other in any of the six orders, and
    filtering by the single service "EC2" is selecting the rows whose
    service equals "EC2". *)
Theorem filter_by_composition (d : DataFrame) (s g p : list value) :
  columns (filter_by d s g p) = columns d ∧
  rows (filter_by d s g p)
    = filter (λ r, (s = [] ∨ row_get r "Service" ∈ s) ∧
                   (g = [] ∨ row_get r "Region" ∈ g) ∧
                   (p = [] ∨ row_get r "Department" ∈ p)) (rows d) ∧
  (let by_service t := filter_by t s [] [] in
   let by_region t := filter_by t [] g [] in
   let by_department t := filter_by t [] [] p in
   filter_by d s g p = by_department (by_region (by_service d)) ∧
   filter_by d s g p = by_region (by_department (by_service d)) ∧
   filter_by d s g p = by_department (by_service (by_region d)) ∧
   filter_by d s g p = by_service (by_department (by_region d)) ∧
   filter_by d s g p = by_region (by_service (by_department d)) ∧
   filter_by d s g p = by_service (by_region (by_department d))) ∧
  filter_by d [Str "EC2"] [] []
    = select (λ r, eq_cmp (row_get r "Service") (Str "EC2")) d.
Proof.
  cbv zeta. split_and!.
  - unfold filter_by. by rewrite !restrict_columns.
  - unfold filter_by. rewrite !restrict_rows, !list_filter_filter.
    apply list_filter_iff. tauto.
  - reflexivity.
  - unfold filter_by. rewrite !restrict_nil. apply restrict_comm.
  - unfold filter_by. rewrite !restrict_nil.
    by rewrite (restrict_comm "Region" g "Service" s d).
  - unfold filter_by. rewrite !restrict_nil.
    rewrite (restrict_comm "Region" g "Service" s d).
    apply restrict_comm.
  - unfold filter_by. rewrite !restrict_nil.
    rewrite (restrict_comm "Department" p "Region" g).
    by rewrite (restrict_comm "Department" p "Service" s d).
  - unfold filter_by. rewrite !restrict_nil.
    rewrite (restrict_comm "Region" g "Service" s d).
    rewrite (restrict_comm "Department" p "Service" s).
    by rewrite (restrict_comm "Department" p "Region" g d).
  - unfold filter_by. rewrite !restrict_nil. apply frame_eq; [done|]. cbn.
    apply list_filter_iff. intros r. unfold isin, eq_cmp.
    rewrite bool_decide_eq_true, list_elem_of_singleton.
    destruct (row_get r "Service"); cbn; rewrite ?bool_decide_eq_true; split; done.
Qed.

(** ** Ranking by completeness *)

Section RankingProps.
Implicit Types (d t : DataFrame) (r : row) (ks : list Qc) (idx : list nat).










End RankingProps.




(** ** Running the remediation on the heap *)

Section Heap.
Implicit Types (h : heap) (d : DataFrame) (r : ref).

Lemma bind_run {A B} (m : M A) (f : A → M B) h x h' :
  m h = Some (x, h') → (m ≫= f) h = f x h'.
Proof. intros H. unfold mbind, M_bind. by rewrite H. Qed.

Lemma df_modify_run r f h d :
  h !! r = Some d → df_modify r f h = Some ((), <[r := f d]> h).
Proof. intros H. unfold df_modify. by rewrite H. Qed.

(** A loop whose body updates one object updates it by the fold of the
    body's updates. *)
Lemma for_each_modify {A} (l : list A) (body : A → M ())
    (g : A → DataFrame → DataFrame) r :
  (∀ x h d, h !! r = Some d → body x h = Some ((), <[r := g x d]> h)) →
  ∀ h d, h !! r = Some d →
    for_each l body h = Some ((), <[r := foldl (λ acc x, g x acc) d l]> h).
Proof.
  intros Hbody. induction l as [|x l IH]; intros h d Hr; cbn.
  - by rewrite list_insert_id.
  - rewrite (bind_run _ _ _ _ _ (Hbody x h d Hr)).
    rewrite (IH _ (g x d)).
    + by rewrite list_insert_insert_eq.
    + apply list_lookup_insert_eq. by eapply lookup_lt_Some.
Qed.

Lemma apply_edits_run r em h d :
  h !! r = Some d →
  apply_edits r em h = Some ((), <[r := edited em d]> h).
Proof.
  intros Hr. unfold apply_edits, edited.
  rewrite (for_each_modify em _ (λ '(rid, changes), apply_changes rid changes) r)
    with (d := d); [|clear h d Hr|done].
  - do 3 f_equal. apply foldl_ext. by intros acc [rid changes].
  - intros [rid changes] h d Hr. unfold apply_changes.
    rewrite (for_each_modify changes _ (λ '(col, val), loc_assign rid col val) r)
      with (d := d); [|clear h d Hr|done].
    + do 3 f_equal. apply foldl_ext. by intros acc [col val].
    + intros [col val] h d Hr. by apply df_modify_run.
Qed.

Lemma recompute_run r h d :
  h !! r = Some d → recompute r h = Some ((), <[r := recomputed d]> h).
Proof.
  intros Hr. unfold recompute.
  rewrite (bind_run _ _ _ _ _ (df_modify_run r _ h d Hr)).
  rewrite (df_modify_run r _ _ (with_completeness d)).
  - by rewrite list_insert_insert_eq.
  - apply list_lookup_insert_eq. by eapply lookup_lt_Some.
Qed.

Lemma merge_edits_run df em h d :
  h !! df = Some d →
  merge_edits df em h = Some (length h, h ++ [edited em d]).
Proof.
  intros Hdf. unfold merge_edits.
  assert (df_copy df h = Some (length h, h ++ [d])) as Hcopy.
  { unfold df_copy. by rewrite Hdf. }
  rewrite (bind_run _ _ _ _ _ Hcopy).
  assert ((h ++ [d]) !! length h = Some d) as Hnew.
  { by rewrite lookup_app_r, Nat.sub_diag. }
  rewrite (bind_run _ _ _ _ _ (apply_edits_run _ em _ _ Hnew)).
  rewrite insert_app_r_alt, Nat.sub_diag by done. reflexivity.
Qed.

Lemma apply_remediation_run df em h d :
  h !! df = Some d →
  apply_remediation df em h = Some (length h, h ++ [recomputed (edited em d)]).
Proof.
  intros Hdf. unfold apply_remediation.
  rewrite (bind_run _ _ _ _ _ (merge_edits_run df em h d Hdf)).
  assert ((h ++ [edited em d]) !! length h = Some (edited em d)) as Hnew.
  { by rewrite lookup_app_r, Nat.sub_diag. }
  rewrite (bind_run _ _ _ _ _ (recompute_run _ _ _ Hnew)).
  rewrite insert_app_r_alt, Nat.sub_diag by done. reflexivity.
Qed.

Lemma on_apply_run df editable_df em h d :
  to_edited_map editable_df = Some em → h !! df = Some d →
  on_apply df editable_df h
    = Some ((length h, changed (recomputed (edited em d)) d),
            h ++ [recomputed (edited em d)]).
Proof.
  intros Hem Hdf. unfold on_apply. rewrite Hem.
  rewrite (bind_run _ _ _ _ _ (apply_remediation_run df em h d Hdf)).
  unfold mbind, M_bind, df_read.
  rewrite lookup_app_r, Nat.sub_diag by done. cbn.
  by rewrite lookup_app_l, Hdf by (by eapply lookup_lt_Some).
Qed.

(** An editor table with two rows under one resource id is refused by
    line 190, and the handler stops there. *)
Example duplicate_editor_rows_refused :
  to_edited_map dup_frame = None ∧ on_apply 0 dup_frame [dup_frame] = None.
Proof. split; by vm_compute. Qed.
End Heap.

(** ** The remediated rows *)

Section Rows.
Implicit Types (d t : DataFrame) (r a b e m : row) (c col : string) (v val rid : value).
Implicit Types (em : dict value (dict string value)) (ch : dict string value).

Lemma loc_row_hit rid col val r :
  row_get r "ResourceID" = rid → isna rid = false →
  loc_row rid col val r = <[col := val]> r.
Proof.
  intros Hr Hrid. unfold loc_row.
  assert (eq_cmp (row_get r "ResourceID") rid = true) as ->; [|done].
  apply eq_cmp_true. by subst.
Qed.

Lemma loc_row_miss rid col val r :
  row_get r "ResourceID" ≠ rid → loc_row rid col val r = r.
Proof.
  intros Hr. unfold loc_row.
  destruct (eq_cmp _ _) eqn:E; [|done].
  apply eq_cmp_true in E as [? _]. done.
Qed.

Lemma loc_row_get_ne rid col val r c :
  col ≠ c → row_get (loc_row rid col val r) c = row_get r c.
Proof.
  intros. unfold loc_row. destruct (eq_cmp _ _); [|done].
  by apply row_get_insert_ne.
Qed.

(** The row-wise reading of a sequence of frame updates. *)
Lemma rows_foldl {A} (g : A → DataFrame → DataFrame) (gr : A → row → row)
    (l : list A) d :
  (∀ x d, rows (g x d) = gr x <$> rows d) →
  rows (foldl (λ acc x, g x acc) d l)
    = (λ r, foldl (λ acc x, gr x acc) r l) <$> rows d.
Proof.
  intros Hg. revert d. induction l as [|x l IH]; intros d; cbn.
  - by rewrite list_fmap_id.
  - by rewrite IH, Hg, <-list_fmap_compose.
Qed.

Lemma rows_edited em d : rows (edited em d) = edit_row em <$> rows d.
Proof.
  unfold edited, edit_row.
  rewrite (foldl_ext _ (λ acc x, (λ '(rid, ch), apply_changes rid ch) x acc))
    by (by intros ? [??]).
  rewrite (rows_foldl _ (λ '(rid, ch) r,
             foldl (λ acc '(col, val), loc_row rid col val acc) r ch)).
  - apply list_fmap_ext. intros _ r _. apply foldl_ext. by intros ? [??].
  - intros [rid ch] d'. unfold apply_changes.
    rewrite (foldl_ext _ (λ acc x, (λ '(col, val), loc_assign rid col val) x acc))
      by (by intros ? [??]).
    rewrite (rows_foldl _ (λ '(col, val), loc_row rid col val)).
    + apply list_fmap_ext. intros _ r _. apply foldl_ext. by intros ? [??].
    + by intros [col val] d''.
Qed.

Lemma rows_recomputed d : rows (recomputed d) = recompute_row <$> rows d.
Proof. unfold recomputed, assign. cbn. by rewrite <-list_fmap_compose. Qed.

Lemma rows_remediated em d :
  rows (recomputed (edited em d)) = (recompute_row ∘ edit_row em) <$> rows d.
Proof. by rewrite rows_recomputed, rows_edited, <-list_fmap_compose. Qed.

(** Cells under labels that no edit assigns keep their contents. *)
Lemma changes_get_ne rid ch r c :
  c ∉ ch.*1 →
  row_get (foldl (λ acc '(col, val), loc_row rid col val acc) r ch) c = row_get r c.
Proof.
  revert r. induction ch as [|[col val] ch IH]; intros r Hc; cbn; [done|].
  cbn in Hc. apply not_elem_of_cons in Hc as [Hne Hc].
  rewrite IH by done. by apply loc_row_get_ne.
Qed.

Lemma edit_row_get_ne em r c :
  c ∉ edited_labels em → row_get (edit_row em r) c = row_get r c.
Proof.
  unfold edit_row, edited_labels.
  revert r. induction em as [|[rid ch] em IH]; intros r Hc; cbn; [done|].
  cbn in Hc. rewrite elem_of_app in Hc.
  rewrite IH by tauto. apply changes_get_ne. tauto.
Qed.

(** A row whose key differs from an entry's is passed over by it. *)
Lemma changes_miss rid ch r :
  row_get r "ResourceID" ≠ rid →
  foldl (λ acc '(col, val), loc_row rid col val acc) r ch = r.
Proof.
  intros Hne. induction ch as [|[col val] ch IH]; cbn; [done|].
  by rewrite loc_row_miss.
Qed.

(** A row under the entry's key receives every assignment of it. *)
Lemma changes_hit rid ch r :
  row_get r "ResourceID" = rid → isna rid = false → "ResourceID" ∉ ch.*1 →
  foldl (λ acc '(col, val), loc_row rid col val acc) r ch
    = foldl (λ acc '(col, val), <[col := val]> acc) r ch.
Proof.
  revert r. induction ch as [|[col val] ch IH]; intros r Hr Hrid Hc; cbn; [done|].
  cbn in Hc. apply not_elem_of_cons in Hc as [Hne Hc].
  rewrite loc_row_hit by done. apply IH; [|done..].
  by rewrite row_get_insert_ne.
Qed.

Lemma inserts_get_ne ch r c :
  c ∉ ch.*1 → row_get (foldl (λ acc '(col, val), <[col := val]> acc) r ch) c = row_get r c.
Proof.
  revert r. induction ch as [|[col val] ch IH]; intros r Hc; cbn; [done|].
  cbn in Hc. apply not_elem_of_cons in Hc as [Hne Hc].
  rewrite IH by done. by apply row_get_insert_ne.
Qed.

Lemma inserts_get ch r col val :
  NoDup ch.*1 → (col, val) ∈ ch →
  row_get (foldl (λ acc '(col, val), <[col := val]> acc) r ch) col = val.
Proof.
  revert r. induction ch as [|[col' val'] ch IH]; intros r Hnd Hin; cbn.
  - by apply elem_of_nil in Hin.
  - cbn in Hnd. apply NoDup_cons in Hnd as [Hnotin Hnd].
    apply elem_of_cons in Hin as [Heq|Hin].
    + simplify_eq. rewrite inserts_get_ne by done. apply row_get_insert_eq.
    + by apply IH.
Qed.

Lemma edit_row_miss em r :
  row_get r "ResourceID" ∉ em.*1 → edit_row em r = r.
Proof.
  unfold edit_row. induction em as [|[rid ch] em IH]; intros Hr; cbn; [done|].
  cbn in Hr. apply not_elem_of_cons in Hr as [Hne Hr].
  rewrite changes_miss by done. by apply IH.
Qed.

Lemma edit_row_hit em rid ch r :
  NoDup em.*1 → "ResourceID" ∉ edited_labels em → (rid, ch) ∈ em →
  row_get r "ResourceID" = rid → isna rid = false →
  edit_row em r = foldl (λ acc '(col, val), <[col := val]> acc) r ch.
Proof.
  induction em as [|[rid' ch'] em IH]; intros Hnd Hlab Hin Hr Hrid.
  - by apply elem_of_nil in Hin.
  - cbn in Hnd. apply NoDup_cons in Hnd as [Hnotin Hnd].
    unfold edited_labels in Hlab. cbn in Hlab. rewrite elem_of_app in Hlab.
    change (edit_row ((rid', ch') :: em) r)
      with (edit_row em (foldl (λ acc '(col, val), loc_row rid' col val acc) r ch')).
    apply elem_of_cons in Hin as [Heq|Hin].
    + simplify_eq. rewrite changes_hit by tauto.
      apply edit_row_miss. rewrite inserts_get_ne by tauto. done.
    + assert (rid' ≠ rid) as Hne.
      { intros ->. apply Hnotin. apply list_elem_of_fmap. by exists (rid, ch). }
      rewrite changes_miss by (by rewrite Hr).
      apply IH; try done. unfold edited_labels. tauto.
Qed.


Lemma retag_insert_completeness r v :
  retag (<["TagCompleteness" := v]> r) = retag r.
Proof. unfold retag. by rewrite !row_get_insert_ne. Qed.

Lemma recompute_row_tagged r :
  row_get (recompute_row r) "Tagged_filled" = retag r.
Proof.
  unfold recompute_row. cbv zeta.
  by rewrite row_get_insert_eq, retag_insert_completeness.
Qed.

Lemma recompute_row_get_ne r c :
  c ≠ "TagCompleteness" → c ≠ "Tagged_filled" →
  row_get (recompute_row r) c = row_get r c.
Proof.
  intros. unfold recompute_row. cbv zeta. by rewrite !row_get_insert_ne.
Qed.

Lemma retag_yes r :
  isna (row_get r "Department") = false → isna (row_get r "Owner") = false →
  retag r = Str "Yes".
Proof. intros H1 H2. unfold retag. by rewrite H1, H2. Qed.

Lemma retag_fallback r :
  isna (row_get r "Department") = true ∨ isna (row_get r "Owner") = true →
  retag r = fillna (Str "No") (row_get r "Tagged_filled").
Proof.
  intros H. unfold retag, fillna.
  destruct (isna (row_get r "Department")), (isna (row_get r "Owner"));
    cbn; try (by destruct H);
    by destruct (isna (row_get r "Tagged_filled")).
Qed.

Lemma retag_keeps_yes r : row_get r "Tagged_filled" = Str "Yes" → retag r = Str "Yes".
Proof.
  intros H. unfold retag. rewrite H. cbn.
  by destruct (negb _ && negb _).
Qed.

Lemma joined_before a v : row_get (joined a v) "Tagged_filled_before" = v.
Proof. unfold joined. apply row_get_insert_eq. Qed.

Lemma joined_after a v :
  row_get (joined a v) "Tagged_filled_after" = row_get a "Tagged_filled".
Proof. unfold joined. by rewrite row_get_insert_ne, row_get_insert_eq. Qed.

(** With distinct keys on the right and the same key at the same
    position on the left, the join pairs the rows position by position. *)
Lemma merge_before_aligned t d (x : row) :
  NoDup (column "ResourceID" d) →
  (∀ i a, rows t !! i = Some a →
     ∃ b, rows d !! i = Some b ∧ row_get a "ResourceID" = row_get b "ResourceID") →
  x ∈ rows (merge_before t d) →
  ∃ i a b, rows t !! i = Some a ∧ rows d !! i = Some b ∧
           x = joined a (row_get b "Tagged_filled").
Proof.
  intros Hnd Hal Hx. unfold merge_before in Hx. cbn [rows] in Hx.
  apply list_elem_of_bind in Hx as (a & Hx & Ha).
  apply list_elem_of_lookup in Ha as [i Hi].
  destruct (Hal i a Hi) as (b & Hb & Hkey).
  rewrite Hkey in Hx.
  rewrite (filter_unique_key (λ r, row_get r "ResourceID") (rows d) i b) in Hx by done.
  cbn in Hx. apply list_elem_of_singleton in Hx. eauto 6.
Qed.

Lemma changed_rows t d (y : row) :
  y ∈ rows (changed t d) →
  ∃ x, x ∈ rows (merge_before t d) ∧
    ne_cmp (row_get x "Tagged_filled_after") (row_get x "Tagged_filled_before") = true ∧
    row_get y "Tagged_filled_before" = row_get x "Tagged_filled_before" ∧
    row_get y "Tagged_filled_after" = row_get x "Tagged_filled_after".
Proof.
  unfold changed, project, select. cbn [rows]. intros Hc.
  apply list_elem_of_fmap in Hc as (x & -> & Hx).
  apply list_elem_of_filter in Hx as [HP Hx].
  exists x. split_and!; [done..| |]; apply row_get_pick; repeat constructor.
Qed.
End Rows.

(** ** The remediation workflow *)

(** C3: run on a heap in which [df] holds a table, [apply_remediation]
    succeeds for every edit map and returns a reference that was not
    allocated before; afterwards [df] still holds the very same table, and
    so does every other object that existed before the call. *)
Theorem remediation_non_mutation (h : heap) (df : ref) (d : DataFrame)
    (edited_map : dict value (dict string value)) :
  h !! df = Some d →
  ∃ remediated h',
    apply_remediation df edited_map h = Some (remediated, h') ∧
    h !! remediated = None ∧
    is_Some (h' !! remediated) ∧
    h' !! df = Some d ∧
    ∀ r, r ≠ remediated → h' !! r = h !! r.
Proof.
  intros Hdf. exists (length h), (h ++ [recomputed (edited edited_map d)]).
  split_and!.
  - by apply apply_remediation_run.
  - by apply lookup_ge_None_2.
  - rewrite lookup_app_r, Nat.sub_diag by done. by eexists.
  - by rewrite lookup_app_l by (by eapply lookup_lt_Some).
  - intros r Hr. destruct (decide (r < length h)%nat).
    + by rewrite lookup_app_l.
    + rewrite lookup_app_r by lia. rewrite (lookup_ge_None_2 h r) by lia.
      destruct (r - length h)%nat eqn:E; [lia|done].
Qed.

Lemma remediation_non_mutation_witness :
  ∃ remediated h',
    apply_remediation 0 scenario_edits [scenario] = Some (remediated, h') ∧
    [scenario] !! remediated = None ∧
    is_Some (h' !! remediated) ∧
    h' !! 0%nat = Some scenario ∧
    ∀ r, r ≠ remediated → h' !! r = [scenario] !! r.
Proof.
  apply (remediation_non_mutation [scenario] 0 scenario scenario_edits).
  reflexivity.
Defined.

(** C2: let the edit map be a dict that does not assign the key column,
    and let it hold value [val] for field [col] under a present key [rid].
    Then in the copy that has received the edits every record whose
    resource id in the table is [rid] has [val] in field [col], however
    many records share that id; the same holds in the table
    [apply_remediation] returns for every field other than the two
    recomputed ones. *)
Theorem broadcast_edit (h : heap) (df : ref) (d : DataFrame)
    (edited_map : dict value (dict string value))
    (rid : value) (changes : dict string value) (col : string) (val : value) :
  h !! df = Some d →
  edit_map_ok edited_map →
  (rid, changes) ∈ edited_map → (col, val) ∈ changes → isna rid = false →
  (∃ remediated h' t,
     merge_edits df edited_map h = Some (remediated, h') ∧
     h' !! remediated = Some t ∧
     ∀ i b, rows d !! i = Some b → row_get b "ResourceID" = rid →
       ∃ e, rows t !! i = Some e ∧ row_get e col = val) ∧
  (∃ remediated h' t,
     apply_remediation df edited_map h = Some (remediated, h') ∧
     h' !! remediated = Some t ∧
     ∀ i b, rows d !! i = Some b → row_get b "ResourceID" = rid →
       col ≠ "TagCompleteness" → col ≠ "Tagged_filled" →
       ∃ m, rows t !! i = Some m ∧ row_get m col = val).
Proof.
  intros Hdf (Hkeys & Hcols & Hrid) Hentry Hchange Hpresent.
  assert (∀ b, row_get b "ResourceID" = rid → row_get (edit_row edited_map b) col = val)
    as Hrow.
  { intros b Hb. rewrite (edit_row_hit edited_map rid changes) by done.
    apply inserts_get; [|done].
    rewrite Forall_forall in Hcols. apply Hcols.
    apply list_elem_of_fmap. by exists (rid, changes). }
  split.
  - exists (length h), (h ++ [edited edited_map d]), (edited edited_map d).
    split_and!.
    + by apply merge_edits_run.
    + by rewrite lookup_app_r, Nat.sub_diag.
    + intros i b Hi Hb. exists (edit_row edited_map b). split; [|by apply Hrow].
      by rewrite rows_edited, list_lookup_fmap, Hi.
  - exists (length h), (h ++ [recomputed (edited edited_map d)]),
      (recomputed (edited edited_map d)). split_and!.
    + by apply apply_remediation_run.
    + by rewrite lookup_app_r, Nat.sub_diag.
    + intros i b Hi Hb Hc1 Hc2.
      exists (recompute_row (edit_row edited_map b)). split.
      * by rewrite rows_remediated, list_lookup_fmap, Hi.
      * rewrite recompute_row_get_ne by done. by apply Hrow.
Qed.

Lemma broadcast_edit_witness :
  (∃ remediated h' t,
     merge_edits 0 dup_edits [dup_frame] = Some (remediated, h') ∧
     h' !! remediated = Some t ∧
     ∀ i b, rows dup_frame !! i = Some b → row_get b "ResourceID" = Str "R1" →
       ∃ e, rows t !! i = Some e ∧ row_get e "Department" = Str "Ops") ∧
  (∃ remediated h' t,
     apply_remediation 0 dup_edits [dup_frame] = Some (remediated, h') ∧
     h' !! remediated = Some t ∧
     ∀ i b, rows dup_frame !! i = Some b → row_get b "ResourceID" = Str "R1" →
       "Department" ≠ "TagCompleteness" → "Department" ≠ "Tagged_filled" →
       ∃ m, rows t !! i = Some m ∧ row_get m "Department" = Str "Ops").
Proof.
  apply (broadcast_edit [dup_frame] 0 dup_frame dup_edits (Str "R1")
           [("Department", Str "Ops")] "Department" (Str "Ops")).
  - reflexivity.
  - unfold edit_map_ok. split_and!; refine (bool_decide_unpack _ _); by vm_compute.
  - repeat constructor.
  - repeat constructor.
  - reflexivity.
Defined.

(** Both records that share R1 end up in department Ops. *)
Example broadcast_both_rows :
  column "Department" (edited dup_edits dup_frame) = [Str "Ops"; Str "Ops"].
Proof. by vm_compute. Qed.

(** C1: in the table that [apply_remediation] returns, record by record:
    department and owner are those the record has after the edits; if both
    are present the resolved status is "Yes", whatever the other fields
    hold; if either is missing the resolved status is the one the record
    carried into the recomputation, or "No" when that is missing too.  The
    status carried into the recomputation is the baseline's whenever no
    edit assigns the resolved-status field. *)
Theorem resolved_status_rule (h h' : heap) (df remediated : ref) (d : DataFrame)
    (edited_map : dict value (dict string value)) :
  h !! df = Some d →
  apply_remediation df edited_map h = Some (remediated, h') →
  ∃ t, h' !! remediated = Some t ∧
    length (rows t) = length (rows d) ∧
    ∀ i m, rows t !! i = Some m →
      ∃ b e, rows d !! i = Some b ∧ rows (edited edited_map d) !! i = Some e ∧
        row_get m "Department" = row_get e "Department" ∧
        row_get m "Owner" = row_get e "Owner" ∧
        (isna (row_get m "Department") = false →
         isna (row_get m "Owner") = false →
         row_get m "Tagged_filled" = Str "Yes") ∧
        (isna (row_get m "Department") = true ∨ isna (row_get m "Owner") = true →
         row_get m "Tagged_filled" = fillna (Str "No") (row_get e "Tagged_filled")) ∧
        ("Tagged_filled" ∉ edited_labels edited_map →
         row_get e "Tagged_filled" = row_get b "Tagged_filled").
Proof.
  intros Hdf Hrun. rewrite (apply_remediation_run _ _ _ _ Hdf) in Hrun.
  simplify_eq. exists (recomputed (edited edited_map d)). split_and!.
  - by rewrite lookup_app_r, Nat.sub_diag.
  - by rewrite rows_remediated, length_fmap.
  - intros i m Hm. rewrite rows_remediated, list_lookup_fmap in Hm.
    destruct (rows d !! i) as [b|] eqn:Hb; [|done]. cbn in Hm. simplify_eq.
    exists b, (edit_row edited_map b).
    rewrite rows_edited, list_lookup_fmap, Hb.
    rewrite !recompute_row_get_ne by done. rewrite recompute_row_tagged.
    split_and!; try done.
    + apply retag_yes.
    + apply retag_fallback.
    + apply edit_row_get_ne.
Qed.

Lemma resolved_status_rule_witness :
  ∃ t, [scenario; recomputed (edited scenario_edits scenario)] !! 1%nat = Some t ∧
    length (rows t) = length (rows scenario) ∧
    ∀ i m, rows t !! i = Some m →
      ∃ b e, rows scenario !! i = Some b ∧
        rows (edited scenario_edits scenario) !! i = Some e ∧
        row_get m "Department" = row_get e "Department" ∧
        row_get m "Owner" = row_get e "Owner" ∧
        (isna (row_get m "Department") = false →
         isna (row_get m "Owner") = false →
         row_get m "Tagged_filled" = Str "Yes") ∧
        (isna (row_get m "Department") = true ∨ isna (row_get m "Owner") = true →
         row_get m "Tagged_filled" = fillna (Str "No") (row_get e "Tagged_filled")) ∧
        ("Tagged_filled" ∉ edited_labels scenario_edits →
         row_get e "Tagged_filled" = row_get b "Tagged_filled").
Proof.
  apply (resolved_status_rule [scenario] _ 0 1 scenario scenario_edits).
  - reflexivity.
  - reflexivity.
Defined.

(** The scenario: after the correction of A both resources are tagged, no
    untagged cost is left, and the only changed record is A, from "No" to
    "Yes", with its cost of 100. *)
Example scenario_remediated :
  let t := recomputed (edited scenario_edits scenario) in
  column "Tagged_filled" t = [Str "Yes"; Str "Yes"] ∧
  after_untag_cost t = 0 ∧
  rows (changed t scenario)
    = [ mk_row [("ResourceID", Str "A"); ("Tagged_filled_before", Str "No");
                ("Tagged_filled_after", Str "Yes"); ("Cost", Num (Q2Qc 100))] ].
Proof. cbv zeta. split_and!; refine (bool_decide_unpack _ _); by vm_compute. Qed.

(** C9, as amended: if no edit assigns the resolved-status field, every
    record whose resolved status is "Yes" when the recomputation starts,
    and so every record whose status is "Yes" in the baseline, is "Yes" in
    the remediated table.  If moreover no edit assigns the key column, the
    resource ids of the baseline are pairwise distinct and every baseline
    status is "Yes" or "No", then every entry of [changed] goes from "No"
    to "Yes". *)
Theorem remediation_never_untags (h h' : heap) (df remediated : ref) (d : DataFrame)
    (edited_map : dict value (dict string value)) :
  h !! df = Some d →
  apply_remediation df edited_map h = Some (remediated, h') →
  "Tagged_filled" ∉ edited_labels edited_map →
  ∃ t, h' !! remediated = Some t ∧
    (∀ i e, rows (edited edited_map d) !! i = Some e →
       row_get e "Tagged_filled" = Str "Yes" →
       ∃ m, rows t !! i = Some m ∧ row_get m "Tagged_filled" = Str "Yes") ∧
    (∀ i b, rows d !! i = Some b → row_get b "Tagged_filled" = Str "Yes" →
       ∃ m, rows t !! i = Some m ∧ row_get m "Tagged_filled" = Str "Yes") ∧
    ("ResourceID" ∉ edited_labels edited_map →
     NoDup (column "ResourceID" d) →
     (∀ b, b ∈ rows d → row_get b "Tagged_filled" ∈ [Str "Yes"; Str "No"]) →
     ∀ c, c ∈ rows (changed t d) →
       row_get c "Tagged_filled_before" = Str "No" ∧
       row_get c "Tagged_filled_after" = Str "Yes").
Proof.
  intros Hdf Hrun Htag. rewrite (apply_remediation_run _ _ _ _ Hdf) in Hrun.
  simplify_eq. exists (recomputed (edited edited_map d)). split_and!.
  - by rewrite lookup_app_r, Nat.sub_diag.
  - intros i e He Hyes. rewrite rows_edited, list_lookup_fmap in He.
    destruct (rows d !! i) as [b|] eqn:Hb; [|done]. cbn in He. simplify_eq.
    exists (recompute_row (edit_row edited_map b)). split.
    + by rewrite rows_remediated, list_lookup_fmap, Hb.
    + rewrite recompute_row_tagged. by apply retag_keeps_yes.
  - intros i b Hb Hyes. exists (recompute_row (edit_row edited_map b)). split.
    + by rewrite rows_remediated, list_lookup_fmap, Hb.
    + rewrite recompute_row_tagged. apply retag_keeps_yes.
      by rewrite edit_row_get_ne.
  - intros Hrid Hnd Hdom c Hc.
    apply changed_rows in Hc as (x & Hx & Hne & -> & ->).
    apply merge_before_aligned in Hx as (i & a & b & Ha & Hb & ->); [|done|].
    + rewrite joined_before, joined_after in Hne |- *.
      rewrite rows_remediated, list_lookup_fmap, Hb in Ha. cbn in Ha. simplify_eq.
      rewrite recompute_row_tagged in Hne |- *.
      assert (row_get (edit_row edited_map b) "Tagged_filled" = row_get b "Tagged_filled")
        as Hkeep by (by apply edit_row_get_ne).
      specialize (Hdom b (list_elem_of_lookup_2 _ _ _ Hb)).
      unfold retag in *. rewrite Hkeep in *.
      apply elem_of_cons in Hdom as [Hv|Hdom]; [|apply list_elem_of_singleton in Hdom as Hv];
        rewrite Hv in *; cbn in *;
        destruct (negb _ && negb _); cbn in *; done.
    + intros i a Ha. rewrite rows_remediated, list_lookup_fmap in Ha.
      destruct (rows d !! i) as [b|] eqn:Hb; [|done]. cbn in Ha. simplify_eq.
      exists b. split; [done|].
      rewrite recompute_row_get_ne by done. by apply edit_row_get_ne.
Qed.

Lemma remediation_never_untags_witness :
  ∃ t, [scenario; recomputed (edited scenario_fix scenario)] !! 1%nat = Some t ∧
    rows (changed t scenario) ≠ [] ∧
    (∀ i b, rows scenario !! i = Some b → row_get b "Tagged_filled" = Str "Yes" →
       ∃ m, rows t !! i = Some m ∧ row_get m "Tagged_filled" = Str "Yes") ∧
    ∀ c, c ∈ rows (changed t scenario) →
      row_get c "Tagged_filled_before" = Str "No" ∧
      row_get c "Tagged_filled_after" = Str "Yes".
Proof.
  destruct (remediation_never_untags [scenario]
              [scenario; recomputed (edited scenario_fix scenario)]
              0 1 scenario scenario_fix) as (t & Ht & _ & Hkeep & Hchanged).
  - reflexivity.
  - reflexivity.
  - refine (bool_decide_unpack _ _); by vm_compute.
  - exists t. split_and!; [done| |done|].
    + cbn in Ht. simplify_eq. refine (bool_decide_unpack _ _); by vm_compute.
    + apply Hchanged.
      * refine (bool_decide_unpack _ _); by vm_compute.
      * refine (bool_decide_unpack _ _); by vm_compute.
      * apply Forall_forall. refine (bool_decide_unpack _ _); by vm_compute.
Defined.

(** With two records under one resource id and an empty edit map, the
    join pairs the untagged record with the tagged one, and [changed]
    reports an entry that goes from "Yes" to "No". *)
Lemma changed_reports_untagging :
  let t := recomputed (edited [] dup_frame) in
  ("Tagged_filled" ∉ edited_labels ([] : dict value (dict string value))) ∧
  apply_remediation 0 [] [dup_frame] = Some (1%nat, [dup_frame; t]) ∧
  Exists (λ c, row_get c "Tagged_filled_before" = Str "Yes" ∧
               row_get c "Tagged_filled_after" = Str "No")
         (rows (changed t dup_frame)).
Proof.
  cbv zeta. split_and!.
  - apply not_elem_of_nil.
  - by apply (apply_remediation_run 0 [] [dup_frame] dup_frame).
  - refine (bool_decide_unpack _ _); by vm_compute.
Qed.
(** ** The loader *)

Section LoaderProps.
Variable parse_number : string → option Qc.
Variable repr_number : Qc → string.
Implicit Types (d t : DataFrame) (r : row) (c : string) (v : value).

Local Abbreviation load := (load_data parse_number repr_number).
Local Abbreviation coerce := (coerce_cost parse_number).
Local Abbreviation standardize := (standardize_cost parse_number).
Local Abbreviation normalize := (normalize_objects repr_number).
Local Abbreviation stringify := (stringify_account repr_number).

Lemma coerce_cost_spec v :
  coerce v = match v with
                  | Num q => Num q
                  | Str s => Num (default 0 (parse_number s))
                  | _ => Num 0
                  end.
Proof.
  unfold coerce_cost, to_numeric, fillna.
  destruct v as [| |s|q]; cbn; try done. by destruct (parse_number s).
Qed.

Lemma coerce_cost_not_text v : ¬ is_text (coerce v).
Proof. rewrite coerce_cost_spec. destruct v; cbn; tauto. Qed.

Lemma column_foldl_assign c (F : string → row → value) (l : list string) d :
  c ∉ l → column c (foldl (λ acc c', assign c' (F c') acc) d l) = column c d.
Proof.
  revert d. induction l as [|c' l IH]; intros d Hnot; [done|].
  apply not_elem_of_cons in Hnot as [Hne Hnot]. cbn.
  rewrite IH by done. by apply column_assign_ne.
Qed.

(** Lines 36-37 leave every column alone that holds no text. *)
Lemma column_normalize_objects c d :
  is_object d c = false → column c (normalize d) = column c d.
Proof.
  intros Hc. unfold normalize_objects.
  apply (column_foldl_assign c (λ c' r, normalize_text repr_number (row_get r c'))).
  rewrite list_elem_of_filter. intros [H _]. congruence.
Qed.

Lemma columns_foldl_assign (F : string → row → value) (l : list string) d c :
  c ∈ columns (foldl (λ acc c', assign c' (F c') acc) d l) ↔ c ∈ l ∨ c ∈ columns d.
Proof.
  revert d. induction l as [|c' l IH]; intros d; cbn.
  - rewrite elem_of_nil. tauto.
  - rewrite IH. cbn. rewrite elem_of_add_label, elem_of_cons. tauto.
Qed.

Lemma columns_normalize_objects d c :
  c ∈ columns (normalize d) ↔ c ∈ columns d.
Proof.
  unfold normalize_objects.
  rewrite (columns_foldl_assign (λ c' r, normalize_text repr_number (row_get r c'))).
  rewrite list_elem_of_filter. tauto.
Qed.


Lemma ensure_present l d c : c ∈ columns d → column c (ensure l d) = column c d.
Proof.
  unfold ensure. revert d. induction l as [|req l IH]; intros d Hc; cbn; [done|].
  case_bool_decide as Hreq; [by apply IH|].
  rewrite IH.
  - apply column_assign_ne. by intros ->.
  - cbn. apply elem_of_add_label. by right.
Qed.





Lemma cost_column_kept d1 :
  "Cost" ∈ columns d1 → ¬ Exists is_text (column "Cost" d1) →
  column "Cost" (stringify (ensure REQUIRED (normalize d1)))
    = column "Cost" d1.
Proof.
  intros Hcol Hnum. unfold stringify_account.
  rewrite column_assign_ne by done.
  rewrite <-(column_normalize_objects "Cost" d1)
    by (unfold is_object; by apply bool_decide_eq_false_2).
  apply ensure_present. by apply columns_normalize_objects.
Qed.

Lemma load_data_cost d src :
  standardize d = inr (assign "Cost" (λ r, coerce (row_get r src)) d) →
  ∃ t, load d = inr t ∧ column "Cost" t = coerce <$> column src d.
Proof.
  intros Hstd. eexists. split.
  - unfold load_data. rewrite Hstd. reflexivity.
  - unfold ensure_fields. rewrite cost_column_kept.
    + rewrite column_assign_eq. unfold column. by rewrite <-list_fmap_compose.
    + cbn. apply elem_of_add_label. by left.
    + rewrite column_assign_eq, Exists_fmap, Exists_exists.
      intros (r & _ & Hr). by apply coerce_cost_not_text in Hr.
Qed.

Lemma standardize_canonical d :
  "MonthlyCostUSD" ∈ columns d →
  standardize d
    = inr (assign "Cost" (λ r, coerce (row_get r "MonthlyCostUSD")) d).
Proof. intros H. unfold standardize_cost. by rewrite bool_decide_eq_true_2. Qed.

Lemma standardize_fallback d :
  "MonthlyCostUSD" ∉ columns d → "Cost" ∈ columns d →
  standardize d = inr (assign "Cost" (λ r, coerce (row_get r "Cost")) d).
Proof.
  intros H1 H2. unfold standardize_cost.
  by rewrite bool_decide_eq_false_2, bool_decide_eq_true_2.
Qed.

(** C10: when the input has the canonical cost column, loading succeeds
    and the cost field is that column, cell by cell numeric-coerced; two
    inputs that agree on the canonical column get the same cost field,
    whatever their fallback columns hold.  The fallback column yields the
    cost field only when the canonical one is absent.  Coercion keeps a
    number, reads a text as the number it denotes or as 0 when it denotes
    none, and turns a missing cell into 0. *)
Theorem canonical_cost_precedence (d : DataFrame) :
  ("MonthlyCostUSD" ∈ columns d →
     ∃ t, load d = inr t ∧
          column "Cost" t = coerce <$> column "MonthlyCostUSD" d) ∧
  ("MonthlyCostUSD" ∈ columns d →
     ∀ d', "MonthlyCostUSD" ∈ columns d' →
       column "MonthlyCostUSD" d' = column "MonthlyCostUSD" d →
       ∃ t t', load d = inr t ∧ load d' = inr t' ∧
               column "Cost" t' = column "Cost" t) ∧
  ("MonthlyCostUSD" ∉ columns d → "Cost" ∈ columns d →
     ∃ t, load d = inr t ∧
          column "Cost" t = coerce <$> column "Cost" d) ∧
  (∀ v, coerce v = match v with
                        | Num q => Num q
                        | Str s => Num (default 0 (parse_number s))
                        | _ => Num 0
                        end).
Proof.
  split_and!.
  - intros H. by apply load_data_cost, standardize_canonical.
  - intros H d' H' Hsame.
    destruct (load_data_cost d "MonthlyCostUSD") as (t & Ht & Hc);
      [by apply standardize_canonical|].
    destruct (load_data_cost d' "MonthlyCostUSD") as (t' & Ht' & Hc');
      [by apply standardize_canonical|].
    exists t, t'. split_and!; [done..|]. by rewrite Hc, Hc', Hsame.
  - intros H1 H2. by apply load_data_cost, standardize_fallback.
  - apply coerce_cost_spec.
Qed.

End LoaderProps.

Lemma canonical_cost_precedence_witness :
  ∃ t, load_data no_number no_repr both_costs = inr t ∧
       column "Cost" t = [Num (Q2Qc 5); Num 0; Num 0].
Proof.
  destruct (canonical_cost_precedence no_number no_repr both_costs) as (H & _).
  destruct H as (t & Ht & Hc).
  - refine (bool_decide_unpack _ _); by vm_compute.
  - exists t. split; [done|]. rewrite Hc. by vm_compute.
Defined.



(** * Further properties *)

(** ** Completeness scores and missing tag fields *)

Section Completeness.
Implicit Types (d : DataFrame) (r : row) (fs : list string).

Lemma presence_sum r fs :
  let n := sum_list ((λ f, if isna (row_get r f) then 0%nat else 1%nat) <$> fs) in
  (n ≤ length fs)%nat ∧
  (n = length fs ↔ Forall (λ f, isna (row_get r f) = false) fs) ∧
  (n = 0%nat ↔ Forall (λ f, isna (row_get r f) = true) fs).
Proof.
  induction fs as [|f fs IH]; cbn.
  - split_and!; [lia|split; [constructor|done]|split; [constructor|done]].
  - cbn in IH. destruct IH as (Hle & Hall & Hnone).
    rewrite !Forall_cons. destruct (isna (row_get r f)); cbn.
    + split_and!; [lia| |].
      * split; [lia|]. by intros [? _].
      * rewrite Hnone. tauto.
    + split_and!; [lia| |].
      * rewrite <-Hall. split; [intros; split; [done|lia]|]. intros [_ ?]. lia.
      * split; [lia|]. by intros [? _].
Qed.

Lemma missing_count_cons f r (rs : list row) (cols : list string) :
  missing_count f {| columns := cols; rows := r :: rs |}
  = ((if isna (row_get r f) then 1 else 0)
     + missing_count f {| columns := cols; rows := rs |})%nat.
Proof.
  unfold missing_count. cbn [rows]. rewrite filter_cons.
  destruct (isna (row_get r f)); by rewrite ?decide_True, ?decide_False by done.
Qed.
End Completeness.

(** X1: a completeness score lies between 0 and 6; it is 6 exactly when
    all six tag fields of the record are present and 0 exactly when all
    six are missing. *)
Theorem completeness_bounds (r : row) :
  (completeness_score r ≤ 6)%nat ∧
  (completeness_score r = 6%nat ↔
     Forall (λ f, isna (row_get r f) = false) TAG_FIELDS) ∧
  (completeness_score r = 0%nat ↔
     Forall (λ f, isna (row_get r f) = true) TAG_FIELDS).
Proof. exact (presence_sum r TAG_FIELDS). Qed.

(** X2: over any table the completeness scores of the rows and the
    per-field counts of missing tag fields (line 129) add up to six times
    the number of rows: every tag cell is counted once, as present or as
    missing. *)
Theorem completeness_missing_total (d : DataFrame) :
  (sum_list (completeness_score <$> rows d)
   + sum_list ((λ f, missing_count f d) <$> TAG_FIELDS)
   = 6 * length (rows d))%nat.
Proof.
  destruct d as [cols rs]. cbn [rows]. induction rs as [|r rs IH].
  - reflexivity.
  - rewrite fmap_cons. cbn [sum_list sum_list_with length].
    remember (sum_list (completeness_score <$> rs)) as total eqn:Htotal.
    clear Htotal. unfold TAG_FIELDS in *.
    cbn [fmap list_fmap sum_list sum_list_with] in *.
    rewrite !missing_count_cons. unfold completeness_score, TAG_FIELDS, id in *.
    cbn [fmap list_fmap sum_list sum_list_with]. unfold id.
    destruct (isna (row_get r "Department")), (isna (row_get r "Project")),
      (isna (row_get r "Environment")), (isna (row_get r "Owner")),
      (isna (row_get r "CostCenter")), (isna (row_get r "CreatedBy")); lia.
Qed.

(** ** Counts and percentages *)

Section Counts.
Implicit Types (d : DataFrame) (r : row).

Lemma length_filter_fmap {A B} (f : A → B) (P : B → Prop)
    `{!∀ x, Decision (P x)} (l : list A) :
  length (filter P (f <$> l)) = length (filter (λ x, P (f x)) l).
Proof.
  induction l as [|x l IH]; [done|].
  rewrite fmap_cons, !filter_cons. destruct (decide (P (f x))); cbn; by rewrite IH.
Qed.

Lemma length_filter_le {A} (P : A → Prop) `{!∀ x, Decision (P x)} (l : list A) :
  (length (filter P l) ≤ length l)%nat.
Proof.
  induction l as [|x l IH]; [done|].
  rewrite filter_cons. destruct (decide (P x)); cbn; lia.
Qed.

Lemma length_filter_disjoint {A} (P Q : A → Prop)
    `{!∀ x, Decision (P x)} `{!∀ x, Decision (Q x)} (l : list A) :
  (∀ x, P x → Q x → False) →
  (length (filter P l) + length (filter Q l) ≤ length l)%nat.
Proof.
  intros HPQ. induction l as [|x l IH]; [done|].
  rewrite !filter_cons. specialize (HPQ x).
  destruct (decide (P x)), (decide (Q x)); cbn; try lia. tauto.
Qed.

Lemma is_untagged_fill r :
  is_untagged (<["Tagged_filled" := fillna (Str "No") (row_get r "Tagged")]> r) = true
  ↔ fillna (Str "No") (row_get r "Tagged") = Str "No".
Proof.
  unfold is_untagged. rewrite row_get_insert_eq, eq_cmp_true.
  split; [by intros [? _]|]. intros ->. done.
Qed.

Lemma is_untagged_insert_completeness r v :
  is_untagged (<["TagCompleteness" := v]> r) = is_untagged r.
Proof. unfold is_untagged. by rewrite row_get_insert_ne. Qed.

(** A percentage of a part in a whole lies between 0 and 100. *)
Lemma share_bounds (a b : Qc) :
  0 ≤ a → a ≤ b → 0 < b →
  0 ≤ a / b * Q2Qc 100 ∧ a / b * Q2Qc 100 ≤ Q2Qc 100.
Proof.
  intros Ha Hab Hb.
  assert (0 < / b) as Hinv by (by apply Qcinv_pos).
  assert (0 ≤ Q2Qc 100) as H100 by (refine (bool_decide_unpack _ _); by vm_compute).
  assert (0 ≤ a / b) as H0.
  { unfold Qcdiv. apply Qcmult_nonneg_nonneg; [done|]. by apply Qclt_le_weak. }
  assert (a / b ≤ 1) as H1.
  { assert (b ≠ 0) as Hb0 by (apply not_eq_sym; by apply Qclt_not_eq).
    unfold Qcdiv. rewrite <-(Qcmult_inv_r b) by done.
    apply Qcmult_le_mono_nonneg_r; [by apply Qclt_le_weak|done]. }
  split.
  - by apply Qcmult_nonneg_nonneg.
  - rewrite <-(Qcmult_1_l (Q2Qc 100)) at 2.
    by apply Qcmult_le_mono_nonneg_r.
Qed.



Lemma untag_count_untagged_df (d : DataFrame) :
  untag_count d = length (rows (untagged_df (with_completeness (fill_tagged d)))).
Proof.
  unfold untag_count, untagged_df, select, with_completeness, fill_tagged, assign.
  cbn [rows]. rewrite <-list_fmap_compose, length_filter_fmap.
  f_equal. apply list_filter_iff. intros r. cbn.
  by rewrite is_untagged_insert_completeness, is_untagged_fill.
Qed.
End Counts.

(** X3: the untagged count of line 73 is the entry of the value counts
    under "No", it is the number of rows of [untagged_df] once lines 83
    and 120 have run, and together with the count under "Yes" it never
    exceeds the number of rows. *)
Theorem untag_count_consistent (d : DataFrame) :
  untag_count d = tag_counts_get (Str "No") d ∧
  untag_count d = length (rows (untagged_df (with_completeness (fill_tagged d)))) ∧
  (tag_counts_get (Str "Yes") d + untag_count d ≤ length (rows d))%nat.
Proof.
  assert (untag_count d = tag_counts_get (Str "No") d) as Hget.
  { unfold untag_count, tag_counts_get, column.
    rewrite <-list_fmap_compose. by rewrite length_filter_fmap. }
  split_and!; [done|apply untag_count_untagged_df|].
  rewrite Hget. unfold tag_counts_get.
  etrans; [apply length_filter_disjoint; by intros v -> [=]|].
  unfold column. by rewrite !length_fmap.
Qed.

(** X4: the percentage of untagged resources of line 74 is always
    defined and lies between 0 and 100; it is 0 on a table without rows
    and the share of the untagged count otherwise. *)
Theorem untag_pct_bounds (d : DataFrame) :
  (rows d = [] → untag_pct d = Some 0) ∧
  (rows d ≠ [] →
     untag_pct d = Some (Qc_of_Z (Z.of_nat (untag_count d))
                         / Qc_of_Z (Z.of_nat (length (rows d))) * Q2Qc 100)) ∧
  ∃ q, untag_pct d = Some q ∧ 0 ≤ q ∧ q ≤ Q2Qc 100.
Proof.
  assert (rows d ≠ [] →
     untag_pct d = Some (Qc_of_Z (Z.of_nat (untag_count d))
                         / Qc_of_Z (Z.of_nat (length (rows d))) * Q2Qc 100) ∧
     0 ≤ Qc_of_Z (Z.of_nat (untag_count d))
         / Qc_of_Z (Z.of_nat (length (rows d))) * Q2Qc 100 ∧
     Qc_of_Z (Z.of_nat (untag_count d))
       / Qc_of_Z (Z.of_nat (length (rows d))) * Q2Qc 100 ≤ Q2Qc 100) as Hne.
  { intros Hrows.
    assert (length (rows d) ≠ 0%nat) as Hlen by (by destruct (rows d)).
    assert (0 < Qc_of_Z (Z.of_nat (length (rows d)))) as Hpos.
    { rewrite <-Z2Qc_inj_0. apply (proj1 (Z2Qc_inj_lt _ _)). lia. }
    split.
    - unfold untag_pct. cbv zeta. rewrite bool_decide_eq_true_2 by done.
      rewrite truediv_some; [done|]. apply not_eq_sym. by apply Qclt_not_eq.
    - apply share_bounds; [| |done].
      + rewrite <-Z2Qc_inj_0. apply (proj1 (Z2Qc_inj_le _ _)). lia.
      + apply (proj1 (Z2Qc_inj_le _ _)). apply inj_le. unfold untag_count. apply length_filter_le. }
  split_and!.
  - intros Hrows. unfold untag_pct. by rewrite Hrows.
  - intros Hrows. by apply Hne.
  - destruct (decide (rows d = [])) as [Hrows|Hrows].
    + exists 0. split_and!.
      * unfold untag_pct. by rewrite Hrows.
      * apply Qcle_refl.
      * refine (bool_decide_unpack _ _); by vm_compute.
    + destruct (Hne Hrows) as (Heq & Hlo & Hhi). eauto.
Qed.



(** ** Grouped costs *)

Section Groups.
Implicit Types (d : DataFrame) (r : row) (k : value).

Lemma value_le_total : Total value_le.
Proof.
  intros [| |s1|q1] [| |s2|q2]; unfold value_le; cbn; auto.
  - destruct (String.le_total s1 s2) as [H|H]; unfold String.le in H;
      [left|right]; by destruct (String.leb _ _).
  - rewrite !bool_decide_eq_true. apply Qc_le_total.
Qed.


Lemma elem_of_group_keys key d k : k ∈ group_keys key d ↔ k ∈ column key d.
Proof. unfold group_keys. by rewrite merge_sort_Permutation, elem_of_remove_dups. Qed.

Lemma elem_of_groupby_cost key d k (q : Qc) :
  (k, q) ∈ groupby_cost key d ↔
  k ∈ column key d ∧ q = cost_sum (filter (λ r, row_get r key = k) (rows d)).
Proof.
  unfold groupby_cost, group_rows. rewrite list_elem_of_fmap. split.
  - intros (k' & [= -> ->] & Hk). by rewrite <-elem_of_group_keys.
  - intros [Hk ->]. exists k. by rewrite elem_of_group_keys.
Qed.

End Groups.


(** X7: the slice of the tagged/untagged split under "No" is the
    untagged cost of line 91: the split has such an entry exactly when
    some row is untagged, every such entry carries the untagged cost, and
    the untagged cost is 0 when no row is untagged. *)
Theorem untagged_slice (d : DataFrame) :
  ((Str "No", untagged_cost d) ∈ tag_cost d ↔
     ∃ r, r ∈ rows d ∧ is_untagged r = true) ∧
  (∀ q, (Str "No", q) ∈ tag_cost d → q = untagged_cost d) ∧
  ((∀ r, r ∈ rows d → is_untagged r = false) → untagged_cost d = 0).
Proof.
  assert (cost_sum (filter (λ r, row_get r "Tagged_filled" = Str "No") (rows d))
          = untagged_cost d) as Hsum.
  { unfold untagged_cost, select. cbn [rows]. f_equal. apply list_filter_iff.
    intros r. unfold is_untagged. rewrite eq_cmp_true. split; [|by intros [? _]].
    intros ->. done. }
  unfold tag_cost. split_and!.
  - rewrite elem_of_groupby_cost, Hsum. unfold column. rewrite list_elem_of_fmap.
    split.
    + intros [(r & Hr & Hin) _]. exists r. split; [done|].
      unfold is_untagged. by rewrite <-Hr.
    + intros (r & Hin & Hr). split; [|done]. exists r. split; [|done].
      unfold is_untagged in Hr. by apply eq_cmp_true in Hr as [-> _].
  - intros q Hq. apply elem_of_groupby_cost in Hq as [_ ->]. done.
  - intros Hnone. unfold untagged_cost, select. cbn [rows].
    rewrite filter_Forall_nil; [done|]. apply Forall_forall. intros r Hr.
    rewrite (Hnone r Hr). done.
Qed.


(** ** Filter options *)

Section Options.
Implicit Types (d : DataFrame) (r : row) (c : string) (v : value).

Lemma filter_ext_in {A} (P Q : A → Prop)
    `{!∀ x, Decision (P x)} `{!∀ x, Decision (Q x)} (l : list A) :
  (∀ x, x ∈ l → P x ↔ Q x) → filter P l = filter Q l.
Proof.
  induction l as [|x l IH]; intros HPQ; [done|].
  rewrite !filter_cons, IH by (intros; apply HPQ; by right).
  assert (P x ↔ Q x) as Hx by (apply HPQ; by left).
  destruct (decide (P x)), (decide (Q x)); tauto.
Qed.

Lemma py_sorted_Some (l opts : list value) :
  py_sorted l = Some opts → opts = merge_sort value_le l.
Proof. unfold py_sorted. case_bool_decide; [|done]. by intros [= <-]. Qed.

Lemma elem_of_options c d opts v :
  options c d = Some opts → v ∈ opts ↔ v ∈ column c d ∧ isna v = false.
Proof.
  intros Ho. apply py_sorted_Some in Ho as ->.
  rewrite merge_sort_Permutation, elem_of_remove_dups, list_elem_of_filter. tauto.
Qed.
End Options.

(** X9: the options offered for a filter (lines 146-148) are the
    distinct present values of the column in ascending order.  A nonempty
    selection among them keeps only rows whose cell is present, selecting
    all of them drops exactly the rows with a missing cell, and selecting
    none keeps every row. *)
Theorem select_all_drops_missing (c : string) (d : DataFrame) (opts : list value) :
  options c d = Some opts →
  NoDup opts ∧ Sorted value_le opts ∧
  (∀ v, v ∈ opts ↔ v ∈ column c d ∧ isna v = false) ∧
  (∀ sel r, sel ⊆ opts → sel ≠ [] → r ∈ rows (restrict c sel d) →
     isna (row_get r c) = false) ∧
  (opts ≠ [] →
     rows (restrict c opts d) = filter (λ r, isna (row_get r c) = false) (rows d)) ∧
  rows (restrict c [] d) = rows d.
Proof.
  intros Ho. split_and!.
  - apply py_sorted_Some in Ho as ->. rewrite merge_sort_Permutation.
    apply NoDup_remove_dups.
  - apply py_sorted_Some in Ho as ->. apply Sorted_merge_sort, value_le_total.
  - intros v. by apply elem_of_options.
  - intros sel r Hsub Hne Hr. rewrite restrict_rows in Hr.
    apply list_elem_of_filter in Hr as [[?|Hin] _]; [done|].
    apply Hsub in Hin. by apply (elem_of_options c d opts) in Hin as [_ ?].
  - intros Hne. rewrite restrict_rows. apply filter_ext_in. intros r Hr.
    rewrite (elem_of_options c d opts) by done. split.
    + intros [?|[_ ?]]; done.
    + intros Hpresent. right. split; [|done].
      unfold column. apply list_elem_of_fmap. eauto.
  - reflexivity.
Qed.

Lemma select_all_drops_missing_witness :
  NoDup [Str "Eng"] ∧ Sorted value_le [Str "Eng"] ∧
  (∀ v, v ∈ [Str "Eng"] ↔ v ∈ column "Department" scenario_loaded ∧ isna v = false) ∧
  (∀ sel r, sel ⊆ [Str "Eng"] → sel ≠ [] →
     r ∈ rows (restrict "Department" sel scenario_loaded) →
     isna (row_get r "Department") = false) ∧
  ([Str "Eng"] ≠ [] →
     rows (restrict "Department" [Str "Eng"] scenario_loaded)
     = filter (λ r, isna (row_get r "Department") = false) (rows scenario_loaded)) ∧
  rows (restrict "Department" [] scenario_loaded) = rows scenario_loaded.
Proof.
  apply (select_all_drops_missing "Department" scenario_loaded [Str "Eng"]).
  by vm_compute.
Defined.

(** ** The button handler *)

Section Handler.
Implicit Types (d t e : DataFrame) (r b u m x : row) (c col : string) (v val rid : value).
Implicit Types (em : dict value (dict string value)) (ch : dict string value).
Implicit Types (h : heap).

Lemma to_edited_map_Some e :
  NoDup (column "ResourceID" e) →
  to_edited_map e
  = Some ((λ r, (row_get r "ResourceID", row_changes (columns e) r)) <$> rows e).
Proof. intros H. unfold to_edited_map. by rewrite bool_decide_eq_true_2. Qed.

Lemma to_edited_map_None e :
  to_edited_map e = None ↔ ¬ NoDup (column "ResourceID" e).
Proof. unfold to_edited_map. case_bool_decide; split; try done. Qed.






End Handler.

(** X10: run on a heap in which [df] holds a table, the button handler
    fails exactly when two rows of the editor carry the same resource id;
    otherwise it returns a fresh object and the changed rows, and appends
    that object to the heap without touching any other. *)
Theorem on_apply_fails_iff (h : heap) (df : ref) (d editable_df : DataFrame) :
  h !! df = Some d →
  (on_apply df editable_df h = None ↔ ¬ NoDup (column "ResourceID" editable_df)) ∧
  (NoDup (column "ResourceID" editable_df) →
   ∃ t, on_apply df editable_df h = Some ((length h, changed t d), h ++ [t])).
Proof.
  intros Hdf. split.
  - rewrite <-to_edited_map_None. split.
    + intros Hnone. destruct (to_edited_map editable_df) as [em|] eqn:Hem; [|done].
      by rewrite (on_apply_run df editable_df em h d) in Hnone.
    + intros Hem. unfold on_apply. by rewrite Hem.
  - intros Hnd. eexists.
    by apply (on_apply_run df editable_df _ h d (to_edited_map_Some _ Hnd)).
Qed.

Lemma on_apply_fails_iff_witness :
  (on_apply 0 scenario_editor [scenario] = None
   ↔ ¬ NoDup (column "ResourceID" scenario_editor)) ∧
  (NoDup (column "ResourceID" scenario_editor) →
   ∃ t, on_apply 0 scenario_editor [scenario]
        = Some ((length [scenario], changed t scenario), [scenario] ++ [t])).
Proof.
  apply (on_apply_fails_iff [scenario] 0 scenario scenario_editor).
  reflexivity.
Defined.



Section Metrics.
Implicit Types (d t e : DataFrame) (r b u m x : row) (c col : string) (v val rid : value).
Implicit Types (em : dict value (dict string value)) (ch : dict string value).
Implicit Types (h : heap).

Lemma length_filter_split {A} (P Q R : A → Prop)
    `{!∀ a, Decision (P a)} `{!∀ a, Decision (Q a)} `{!∀ a, Decision (R a)}
    (l : list A) :
  (∀ y, y ∈ l → (P y ∨ Q y ↔ R y) ∧ ¬ (P y ∧ Q y)) →
  (length (filter P l) + length (filter Q l) = length (filter R l))%nat.
Proof.
  induction l as [|y l IH]; intros Hl; [done|].
  rewrite !filter_cons.
  destruct (Hl y) as [Hor Hnot]; [by left|].
  specialize (IH (λ z Hz, Hl z (list_elem_of_further _ _ _ Hz))).
  destruct (decide (P y)), (decide (Q y)), (decide (R y)); cbn; try lia; tauto.
Qed.

Lemma length_filter_impl {A} (P Q : A → Prop)
    `{!∀ a, Decision (P a)} `{!∀ a, Decision (Q a)} (l : list A) :
  (∀ y, y ∈ l → P y → Q y) → (length (filter P l) ≤ length (filter Q l))%nat.
Proof.
  induction l as [|y l IH]; intros Hl; [done|].
  rewrite !filter_cons.
  specialize (IH (λ z Hz, Hl z (list_elem_of_further _ _ _ Hz))).
  specialize (Hl y (list_elem_of_here _ _)).
  destruct (decide (P y)), (decide (Q y)); cbn; try lia; tauto.
Qed.




(** A record that is untagged after the recomputation was untagged
    before it, unless its status was missing. *)
Lemma retag_no r :
  retag r = Str "No" →
  row_get r "Tagged_filled" = Str "No" ∨ isna (row_get r "Tagged_filled") = true.
Proof.
  unfold retag. destruct (negb _ && negb _); [done|].
  destruct (isna (row_get r "Tagged_filled")); cbn; auto.
Qed.


Lemma bind_fmap_singleton {A B} (F : A → A) (f : A → list B) (g : A → B) (l : list A) :
  (∀ y, y ∈ l → f (F y) = [g y]) → (F <$> l) ≫= f = g <$> l.
Proof.
  induction l as [|y l IH]; intros Hl; [done|].
  rewrite !fmap_cons. cbn. rewrite (Hl y) by (by left).
  rewrite IH by (intros; apply Hl; by right). done.
Qed.

Lemma merge_before_unique t d (F : row → row) :
  rows t = F <$> rows d →
  (∀ b, row_get (F b) "ResourceID" = row_get b "ResourceID") →
  NoDup (column "ResourceID" d) →
  rows (merge_before t d)
  = (λ b, joined (F b) (row_get b "Tagged_filled")) <$> rows d.
Proof.
  intros Ht HF Hnd. unfold merge_before. cbn [rows]. rewrite Ht.
  apply bind_fmap_singleton. intros b Hb.
  apply list_elem_of_lookup in Hb as [i Hi].
  by rewrite HF, (filter_unique_key (λ r, row_get r "ResourceID") (rows d) i b).
Qed.

Lemma isna_fillna_no v : isna (fillna (Str "No") v) = false.
Proof. unfold fillna. by destruct (isna v) eqn:E. Qed.

Lemma loaded_status_present d0 b :
  b ∈ rows (with_completeness (fill_tagged d0)) →
  isna (row_get b "Tagged_filled") = false.
Proof.
  unfold with_completeness, fill_tagged, assign. cbn [rows].
  rewrite <-list_fmap_compose. intros Hb.
  apply list_elem_of_fmap in Hb as (r & -> & _). cbn.
  rewrite row_get_insert_ne, row_get_insert_eq by done. apply isna_fillna_no.
Qed.

Lemma isna_retag r : isna (retag r) = false.
Proof.
  unfold retag. destruct (negb _ && negb _); [done|].
  by destruct (isna (row_get r "Tagged_filled")) eqn:E.
Qed.

Lemma retag_no_fields r :
  retag r = Str "No" →
  isna (row_get r "Department") = true ∨ isna (row_get r "Owner") = true.
Proof.
  unfold retag.
  destruct (isna (row_get r "Department")), (isna (row_get r "Owner")); cbn; auto.
  done.
Qed.

Lemma completeness_score_fields r b :
  (∀ f, f ∈ TAG_FIELDS → row_get r f = row_get b f) →
  completeness_score r = completeness_score b.
Proof.
  intros H. unfold completeness_score. f_equal.
  apply list_fmap_ext. intros i f Hf. rewrite H; [done|].
  by eapply list_elem_of_lookup_2.
Qed.

Lemma tag_field_not_derived f :
  f ∈ TAG_FIELDS →
  f ≠ "ResourceID" ∧ f ≠ "TagCompleteness" ∧ f ≠ "Tagged_filled".
Proof.
  intros Hf. split_and!; intros ->; revert Hf;
    refine (bool_decide_unpack _ _); by vm_compute.
Qed.

Lemma completeness_score_recompute r :
  completeness_score (recompute_row r) = completeness_score r.
Proof.
  apply completeness_score_fields. intros f Hf.
  apply tag_field_not_derived in Hf as (_ & ? & ?).
  by apply recompute_row_get_ne.
Qed.

Lemma recompute_row_completeness r :
  row_get (recompute_row r) "TagCompleteness" = num_of_nat (completeness_score r).
Proof.
  unfold recompute_row. cbv zeta.
  by rewrite row_get_insert_ne, row_get_insert_eq.
Qed.

(** A row whose key no entry matches is passed over by the whole map:
    in particular a row without key, which [==] never matches. *)
Lemma edit_row_nokey em r :
  Forall (λ rid, eq_cmp (row_get r "ResourceID") rid = false) em.*1 →
  edit_row em r = r.
Proof.
  unfold edit_row. induction em as [|[rid ch] em IH]; intros Hr; cbn; [done|].
  cbn in Hr. apply Forall_cons in Hr as [Hne Hr].
  assert (foldl (λ acc '(col, val), loc_row rid col val acc) r ch = r) as ->.
  { clear IH Hr. induction ch as [|[col val] ch IH]; cbn; [done|].
    unfold loc_row at 2. by rewrite Hne. }
  by apply IH.
Qed.

(** Assignments of present values keep present cells present. *)
Lemma changes_keep_present rid ch r f :
  (∀ c v, (c, v) ∈ ch → isna v = false) →
  isna (row_get r f) = false →
  isna (row_get (foldl (λ acc '(col, val), loc_row rid col val acc) r ch) f) = false.
Proof.
  revert r. induction ch as [|[col val] ch IH]; intros r Hch Hr; cbn; [done|].
  apply IH; [intros c v Hin; apply (Hch c v); by right|].
  unfold loc_row. destruct (eq_cmp _ _); [|done].
  rewrite row_get_insert. destruct (decide (col = f)); [|done].
  apply (Hch col val). by left.
Qed.

Lemma edit_row_keeps_present em r f :
  (∀ rid ch c v, (rid, ch) ∈ em → (c, v) ∈ ch → isna v = false) →
  isna (row_get r f) = false →
  isna (row_get (edit_row em r) f) = false.
Proof.
  unfold edit_row. revert r.
  induction em as [|[rid ch] em IH]; intros r Hem Hr; cbn; [done|].
  apply IH; [intros rid' ch' c v Hin; apply (Hem rid' ch' c v); by right|].
  apply changes_keep_present; [|done].
  intros c v Hin. apply (Hem rid ch c v); [by left|done].
Qed.

Lemma presence_sum_mono r b fs :
  (∀ f, f ∈ fs → isna (row_get b f) = false → isna (row_get r f) = false) →
  (sum_list ((λ f, if isna (row_get b f) then 0%nat else 1%nat) <$> fs)
   ≤ sum_list ((λ f, if isna (row_get r f) then 0%nat else 1%nat) <$> fs))%nat.
Proof.
  induction fs as [|f fs IH]; intros H; cbn; [done|].
  assert (isna (row_get b f) = false → isna (row_get r f) = false) as Hf
    by (apply H; by left).
  specialize (IH (λ g Hg, H g (list_elem_of_further _ _ _ Hg))).
  destruct (isna (row_get b f)), (isna (row_get r f)); try lia.
Qed.

Lemma changed_length t d (F : row → row) :
  rows t = F <$> rows d →
  (∀ b, row_get (F b) "ResourceID" = row_get b "ResourceID") →
  NoDup (column "ResourceID" d) →
  length (rows (changed t d))
  = length (filter (λ b, ne_cmp (row_get (F b) "Tagged_filled")
                                (row_get b "Tagged_filled") = true) (rows d)).
Proof.
  intros Ht HF Hnd. unfold changed, project, select. cbn [rows].
  rewrite length_fmap, (merge_before_unique t d F) by done.
  rewrite length_filter_fmap. f_equal. apply list_filter_iff. intros b. cbn.
  by rewrite joined_after, joined_before.
Qed.
End Metrics.





(** X14: when every resource id in the editor belongs to untagged
    records only, as in the table the editor is seeded with, the handler
    never raises the number of untagged resources, whatever the cells of
    the editor hold. *)
Theorem seeded_editor_never_untags (h : heap) (df : ref) (d0 e : DataFrame) :
  h !! df = Some (with_completeness (fill_tagged d0)) →
  NoDup (column "ResourceID" e) →
  (∀ x b, x ∈ rows e → b ∈ rows (with_completeness (fill_tagged d0)) →
     eq_cmp (row_get b "ResourceID") (row_get x "ResourceID") = true →
     is_untagged b = true) →
  ∃ t, on_apply df e h
       = Some ((length h, changed t (with_completeness (fill_tagged d0))), h ++ [t]) ∧
    (after_untag_count t ≤ untag_count d0)%nat.
Proof.
  intros Hdf Hnd Hseed.
  pose proof (to_edited_map_Some e Hnd) as Hem.
  eexists. split; [by apply (on_apply_run df e _ h _ Hem)|].
  rewrite untag_count_untagged_df.
  unfold after_untag_count, untagged_df, select. cbn [rows].
  rewrite rows_remediated, length_filter_fmap.
  apply length_filter_impl. intros b Hb. cbn [compose].
  set (em := (λ r, (row_get r "ResourceID", row_changes (columns e) r)) <$> rows e).
  destruct (decide (Exists (λ x, eq_cmp (row_get b "ResourceID")
                                        (row_get x "ResourceID") = true) (rows e)))
    as [Hex|Hno].
  - intros _. apply Exists_exists in Hex as (x & Hx & Heq). by apply (Hseed x b).
  - rewrite edit_row_nokey.
    + unfold is_untagged. rewrite recompute_row_tagged, !eq_cmp_true.
      intros [Hretag _]. apply retag_no in Hretag as [->|Hna]; [done|].
      by rewrite (loaded_status_present d0 b) in Hna.
    + unfold em. rewrite <-list_fmap_compose. apply Forall_fmap, Forall_forall.
      intros x Hx. cbn. apply not_true_is_false. intros Heq.
      apply Hno, Exists_exists. eauto.
Qed.

Lemma seeded_editor_never_untags_witness :
  ∃ t, on_apply 0 scenario_editor [scenario]
       = Some ((length [scenario],
                changed t (with_completeness (fill_tagged scenario_loaded))),
               [scenario] ++ [t]) ∧
    (after_untag_count t ≤ untag_count scenario_loaded)%nat.
Proof.
  apply (seeded_editor_never_untags [scenario] 0 scenario_loaded scenario_editor).
  - reflexivity.
  - refine (bool_decide_unpack _ _); by vm_compute.
  - assert (Forall (λ x, Forall (λ b,
              eq_cmp (row_get b "ResourceID") (row_get x "ResourceID") = true →
              is_untagged b = true)
              (rows (with_completeness (fill_tagged scenario_loaded))))
              (rows scenario_editor)) as H
      by (refine (bool_decide_unpack _ _); by vm_compute).
    intros x b Hx Hb. rewrite Forall_forall in H. specialize (H x Hx).
    rewrite Forall_forall in H. by apply H.
Defined.

(** X15: for edits that assign neither the key nor the resolved status,
    on a table with distinct resource ids whose statuses are "Yes" or
    "No", the rows listed as changed and the rows still untagged after
    remediation together number the rows untagged before. *)
Theorem changed_count (h : heap) (df : ref) (d : DataFrame)
    (em : dict value (dict string value)) :
  h !! df = Some d →
  "Tagged_filled" ∉ edited_labels em → "ResourceID" ∉ edited_labels em →
  NoDup (column "ResourceID" d) →
  (∀ b, b ∈ rows d →
     row_get b "Tagged_filled" = Str "Yes" ∨ row_get b "Tagged_filled" = Str "No") →
  ∃ t, apply_remediation df em h = Some (length h, h ++ [t]) ∧
    (length (rows (changed t d)) + after_untag_count t
     = length (rows (untagged_df d)))%nat.
Proof.
  intros Hdf Hlab Hkey Hnd Hstat.
  eexists. split; [by apply apply_remediation_run|].
  rewrite (changed_length _ d (recompute_row ∘ edit_row em)); [|apply rows_remediated| |done].
  2:{ intros b. cbn [compose]. rewrite recompute_row_get_ne by done.
      by apply edit_row_get_ne. }
  unfold after_untag_count, untagged_df, select. cbn [rows].
  rewrite rows_remediated, length_filter_fmap.
  apply length_filter_split. intros b Hb. cbn [compose].
  unfold is_untagged. rewrite !recompute_row_tagged.
  pose proof (edit_row_get_ne em b "Tagged_filled" Hlab) as Hsame.
  destruct (Hstat b Hb) as [Hb'|Hb']; rewrite Hb' in *.
  - rewrite (retag_keeps_yes _ Hsame). vm_compute. intuition discriminate.
  - unfold retag. rewrite Hsame.
    destruct (negb _ && negb _); vm_compute; intuition discriminate.
Qed.

Lemma changed_count_witness :
  ∃ t, apply_remediation 0 scenario_fix [scenario]
       = Some (length [scenario], [scenario] ++ [t]) ∧
    (length (rows (changed t scenario)) + after_untag_count t
     = length (rows (untagged_df scenario)))%nat.
Proof.
  apply (changed_count [scenario] 0 scenario scenario_fix).
  - reflexivity.
  - refine (bool_decide_unpack _ _); by vm_compute.
  - refine (bool_decide_unpack _ _); by vm_compute.
  - refine (bool_decide_unpack _ _); by vm_compute.
  - apply Forall_forall. refine (bool_decide_unpack _ _); by vm_compute.
Defined.

(** X16: in every remediated table the stored completeness is the
    score of the row as it stands, the resolved status is never missing,
    an untagged row lacks its department or its owner, and a row of full
    completeness is tagged. *)
Theorem remediated_rows_consistent (h : heap) (df : ref) (d : DataFrame)
    (em : dict value (dict string value)) :
  h !! df = Some d →
  ∃ t, apply_remediation df em h = Some (length h, h ++ [t]) ∧
    ∀ m, m ∈ rows t →
      row_get m "TagCompleteness" = num_of_nat (completeness_score m) ∧
      isna (row_get m "Tagged_filled") = false ∧
      (is_untagged m = true →
         isna (row_get m "Department") = true ∨ isna (row_get m "Owner") = true) ∧
      (completeness_score m = 6%nat → row_get m "Tagged_filled" = Str "Yes").
Proof.
  intros Hdf. eexists. split; [by apply apply_remediation_run|].
  intros m Hm. rewrite rows_remediated in Hm.
  apply list_elem_of_fmap in Hm as (b & -> & _). cbn [compose].
  set (u := edit_row em b).
  split_and!.
  - by rewrite recompute_row_completeness, completeness_score_recompute.
  - rewrite recompute_row_tagged. apply isna_retag.
  - unfold is_untagged. rewrite recompute_row_tagged, eq_cmp_true.
    intros [Hno _]. apply retag_no_fields in Hno.
    by rewrite !recompute_row_get_ne.
  - rewrite completeness_score_recompute, recompute_row_tagged. intros Hfull.
    apply (presence_sum u TAG_FIELDS) in Hfull. rewrite Forall_forall in Hfull.
    apply retag_yes; apply Hfull; refine (bool_decide_unpack _ _); by vm_compute.
Qed.

Lemma remediated_rows_consistent_witness :
  ∃ t, apply_remediation 0 scenario_fix [scenario]
       = Some (length [scenario], [scenario] ++ [t]) ∧
    ∀ m, m ∈ rows t →
      row_get m "TagCompleteness" = num_of_nat (completeness_score m) ∧
      isna (row_get m "Tagged_filled") = false ∧
      (is_untagged m = true →
         isna (row_get m "Department") = true ∨ isna (row_get m "Owner") = true) ∧
      (completeness_score m = 6%nat → row_get m "Tagged_filled" = Str "Yes").
Proof.
  apply (remediated_rows_consistent [scenario] 0 scenario scenario_fix).
  reflexivity.
Defined.

(** X17: edits that assign only present values never lower the
    completeness of a record, and when they do not assign the resolved
    status a tagged record stays tagged. *)
Theorem present_edits_raise_completeness (h : heap) (df : ref) (d : DataFrame)
    (em : dict value (dict string value)) :
  h !! df = Some d →
  (∀ rid ch c v, (rid, ch) ∈ em → (c, v) ∈ ch → isna v = false) →
  ∃ t, apply_remediation df em h = Some (length h, h ++ [t]) ∧
    ∀ i b, rows d !! i = Some b →
      ∃ m, rows t !! i = Some m ∧
        (completeness_score b ≤ completeness_score m)%nat ∧
        (row_get b "Tagged_filled" = Str "Yes" → "Tagged_filled" ∉ edited_labels em →
           row_get m "Tagged_filled" = Str "Yes").
Proof.
  intros Hdf Hem. eexists. split; [by apply apply_remediation_run|].
  intros i b Hb.
  eexists. split; [by rewrite rows_remediated, list_lookup_fmap, Hb|].
  cbn [compose]. split.
  - rewrite completeness_score_recompute. unfold completeness_score.
    apply presence_sum_mono. intros f _. by apply edit_row_keeps_present.
  - intros Hyes Hlab. rewrite recompute_row_tagged. apply retag_keeps_yes.
    by rewrite edit_row_get_ne.
Qed.

Lemma present_edits_raise_completeness_witness :
  ∃ t, apply_remediation 0 scenario_fix [scenario]
       = Some (length [scenario], [scenario] ++ [t]) ∧
    ∀ i b, rows scenario !! i = Some b →
      ∃ m, rows t !! i = Some m ∧
        (completeness_score b ≤ completeness_score m)%nat ∧
        (row_get b "Tagged_filled" = Str "Yes" →
         "Tagged_filled" ∉ edited_labels scenario_fix →
         row_get m "Tagged_filled" = Str "Yes").
Proof.
  apply (present_edits_raise_completeness [scenario] 0 scenario scenario_fix).
  - reflexivity.
  - intros rid ch c v Hin Hc. unfold scenario_fix in Hin.
    apply list_elem_of_singleton in Hin. injection Hin as -> ->.
    rewrite !elem_of_cons, elem_of_nil in Hc.
    destruct Hc as [Hc|[Hc|[]]]; injection Hc as -> ->; reflexivity.
Defined.

(** ** Text cleaning *)

Section Text.
Implicit Types (s w : string) (a : ascii) (l : list ascii).













End Text.


(** ** The loaded table *)

Section LoaderCells.
Variable parse_number : string → option Qc.
Variable repr_number : Qc → string.
Implicit Types (d t : DataFrame) (r : row) (c : string) (v : value).

Local Abbreviation load := (load_data parse_number repr_number).
Local Abbreviation coerce := (coerce_cost parse_number).
Local Abbreviation standardize := (standardize_cost parse_number).
Local Abbreviation normalize := (normalize_objects repr_number).
Local Abbreviation stringify := (stringify_account repr_number).
Local Abbreviation norm_text := (normalize_text repr_number).










End LoaderCells.



(** ** The snapshot of the loaded table *)

Section Session.
Implicit Types (h : heap) (d : DataFrame).

Lemma script_setup_run (df : ref) h d :
  h !! df = Some d →
  script_setup df h
  = Some (length h, <[df := with_completeness (fill_tagged d)]> h ++ [d]).
Proof.
  intros Hdf. pose proof (lookup_lt_Some _ _ _ Hdf) as Hlt.
  unfold script_setup.
  assert (df_copy df h = Some (length h, h ++ [d])) as Hcopy.
  { unfold df_copy. by rewrite Hdf. }
  rewrite (bind_run _ _ _ _ _ Hcopy).
  assert ((h ++ [d]) !! df = Some d) as Hdf' by (by rewrite lookup_app_l).
  rewrite (bind_run _ _ _ _ _ (df_modify_run df _ _ d Hdf')).
  assert (<[df := fill_tagged d]> (h ++ [d]) !! df = Some (fill_tagged d)) as Hdf''.
  { apply list_lookup_insert_eq. rewrite length_app. lia. }
  rewrite (bind_run _ _ _ _ _ (df_modify_run df _ _ (fill_tagged d) Hdf'')).
  rewrite list_insert_insert_eq, insert_app_l by done. reflexivity.
Qed.
End Session.

(** X21: from line 58 to the end of the button handler, the snapshot
    [original_df] is an object of its own that still holds the table as
    loaded, although [df] has received the resolved status and the
    completeness in place; the remediated table is a third object, every
    other object is untouched, and the [Tagged] column of [df] is as
    loaded. *)
Theorem session_keeps_original (h : heap) (df : ref) (d0 editable_df : DataFrame) :
  h !! df = Some d0 →
  NoDup (column "ResourceID" editable_df) →
  ∃ original_df remediated shown h',
    session df editable_df h = Some ((original_df, remediated, shown), h') ∧
    original_df ≠ df ∧ remediated ≠ df ∧ remediated ≠ original_df ∧
    h' !! original_df = Some d0 ∧
    h' !! df = Some (with_completeness (fill_tagged d0)) ∧
    (∀ r : ref, (r < length h)%nat → r ≠ df → h' !! r = h !! r) ∧
    column "Tagged" (with_completeness (fill_tagged d0)) = column "Tagged" d0.
Proof.
  intros Hdf Hnd. pose proof (lookup_lt_Some _ _ _ Hdf) as Hlt.
  set (d := with_completeness (fill_tagged d0)).
  set (h1 := <[df := d]> h ++ [d0]).
  assert (h1 !! df = Some d) as Hdf1.
  { unfold h1. rewrite lookup_app_l by (by rewrite length_insert).
    by apply list_lookup_insert_eq. }
  pose proof (to_edited_map_Some _ Hnd) as Hem.
  pose proof (on_apply_run df editable_df _ h1 d Hem Hdf1) as Hrun.
  assert (length h1 = S (length h)) as Hlen.
  { unfold h1. rewrite length_app, length_insert. cbn. lia. }
  eexists (length h), (length h1), _, _. split_and!.
  - unfold session.
    rewrite (bind_run _ _ _ _ _ (script_setup_run df h d0 Hdf)).
    fold d h1. rewrite (bind_run _ _ _ _ _ Hrun). reflexivity.
  - lia.
  - lia.
  - lia.
  - rewrite lookup_app_l by lia. unfold h1.
    rewrite lookup_app_r by (by rewrite length_insert).
    by rewrite length_insert, Nat.sub_diag.
  - by rewrite lookup_app_l by lia.
  - intros r Hr Hne. rewrite lookup_app_l by lia. unfold h1.
    rewrite lookup_app_l by (by rewrite length_insert).
    by apply list_lookup_insert_ne.
  - unfold d, with_completeness, fill_tagged. by rewrite !column_assign_ne.
Qed.

Lemma session_keeps_original_witness :
  ∃ original_df remediated shown h',
    session 0 scenario_editor [scenario_loaded]
    = Some ((original_df, remediated, shown), h') ∧
    original_df ≠ 0%nat ∧ remediated ≠ 0%nat ∧ remediated ≠ original_df ∧
    h' !! original_df = Some scenario_loaded ∧
    h' !! 0%nat = Some (with_completeness (fill_tagged scenario_loaded)) ∧
    (∀ r : ref, (r < length [scenario_loaded])%nat → r ≠ 0%nat →
       h' !! r = [scenario_loaded] !! r) ∧
    column "Tagged" (with_completeness (fill_tagged scenario_loaded))
    = column "Tagged" scenario_loaded.
Proof.
  apply (session_keeps_original [scenario_loaded] 0 scenario_loaded scenario_editor).
  - reflexivity.
  - refine (bool_decide_unpack _ _); by vm_compute.
Defined.
